(** * Farm-field store: the [fields] slice and its selectors

    A shallow embedding of the Redux slice [fields] (its reducer and its
    selectors) and of the selector inside [SelectedFieldCard] (App.tsx),
    followed by
    the properties of the store and of its derived-data queries.

    Conventions of the embedding:
    - a JavaScript number is an IEEE 754 binary64 value, [spec_float];
    - a value read out of a coordinate array is a [JSValue], because the
      code tests it at run time with lodash's [isNumber];
    - a field identifier is an integer ([Z]); the object [entities] is a
      finite map from identifiers to fields ([gmap Z Field]);
    - [undefined] results are [None]; a [throw] is the [Throw] case of
      [Result]. *)

From Stdlib Require Import ZArith QArith String List Bool Lia.
From Stdlib Require Import Floats.SpecFloat.
From stdpp Require Import base option list gmap fin_maps.

Local Open Scope Z_scope.
Local Open Scope string_scope.
Local Open Scope list_scope.

(** ** JavaScript values *)

Module JS.

(** binary64: 53 bits of precision, exponents below 1024. *)
Definition prec : Z := 53.
Definition emax : Z := 1024.

Definition number : Type := spec_float.

Definition Infinity : number := S754_infinity false.
Definition NegInfinity : number := S754_infinity true.
Definition NaN : number := S754_nan.

(** The number denoted by an integer literal. *)
Definition ofZ (z : Z) : number := binary_normalize prec emax z 0 false.

Definition add (x y : number) : number := SFadd prec emax x y.
Definition div (x y : number) : number := SFdiv prec emax x y.
(** [x < y] and [x > y]; both are false when an operand is NaN. *)
Definition lt (x y : number) : bool := SFltb x y.
Definition gt (x y : number) : bool := SFltb y x.

Definition isNaN (x : number) : bool :=
  match x with S754_nan => true | _ => false end.

(** The rational a finite number stands for: [±m * 2^e]. *)
Definition toQ (x : number) : option Q :=
  match x with
  | S754_zero _ => Some (inject_Z 0)
  | S754_finite s m e =>
      Some (Qmult (inject_Z (if s then Z.neg m else Z.pos m)) (Qpower (inject_Z 2) e))
  | _ => None
  end.

(** The primitive values that can sit in a coordinate array. *)
Inductive JSValue : Type :=
| JSUndefined
| JSNull
| JSBoolean (b : bool)
| JSNumber (n : number)
| JSString (s : string).

(** lodash [isNumber]: true of every value of type number, NaN and the
    infinities included. *)
Definition isNumber (v : JSValue) : bool :=
  match v with JSNumber _ => true | _ => false end.

(** [Number.isFinite]: a number that is neither NaN nor infinite. *)
Definition isFinite (v : JSValue) : bool :=
  match v with
  | JSNumber (S754_zero _) | JSNumber (S754_finite _ _ _) => true
  | _ => false
  end.

(** Array indexing [a[i]]: [undefined] past the end. *)
Definition index (a : list JSValue) (i : nat) : JSValue :=
  nth i a JSUndefined.

End JS.
Export JS.

(** ** Results of code that may throw *)

Inductive Error : Type :=
| NoFieldFound (id : Z)           (* "No field found with id ${id}" *)
| IncompleteFieldData (id : Z)    (* "Incomplete field data for id ${selectedId}" *)
| LibraryError (msg : string).    (* an error thrown by code outside the slice *)

Inductive Result (A : Type) : Type :=
| Ok (a : A)
| Throw (e : Error).
Arguments Ok {A} a.
Arguments Throw {A} e.

(** [Result] is a monad; [x ← r; k] runs [k] unless [r] threw. *)
#[global] Instance Result_ret : MRet Result := fun A a => Ok a.
#[global] Instance Result_bind : MBind Result := fun A B k r =>
  match r with
  | Ok a => k a
  | Throw e => Throw e
  end.

(** ** Data model *)

(** A position is an array of coordinates, a ring an array of positions,
    a polygon's [coordinates] an array of rings. *)
Definition Position : Type := list JSValue.
Definition Ring : Type := list Position.

Record Polygon : Type := { coordinates : list Ring }.

Record Field : Type := {
  id : Z;
  field_name : string;
  polygon : Polygon;
}.

Record LatLngLiteral : Type := { lng : JSValue; lat : JSValue }.

Inductive FetchStatus : Type := pending | fulfilled | rejected.

Record FieldsState : Type := {
  ids : list Z;
  entities : gmap Z Field;
  selectedId : option Z;
  fetchStatus : option FetchStatus;
}.

Definition initialState : FieldsState :=
  {| ids := []; entities := ∅; selectedId := None; fetchStatus := None |}.

(** ** The slice's reducer *)

Inductive Action : Type :=
| clickField (payload : Z)
| closeFieldInfoWindow
| fetchFields_pending
| fetchFields_fulfilled (payload : list Field)
| fetchFields_rejected
| otherAction.   (* an action of another slice: no case reducer matches *)

(** The callback of [payload.reduce]: [{ ...acc, [field.id]: { ...field } }]. *)
Definition insertField (acc : gmap Z Field) (field : Field) : gmap Z Field :=
  <[id field := field]> acc.

(** [payload.reduce((acc, field) => ..., {})] *)
Definition entitiesOf (payload : list Field) : gmap Z Field :=
  fold_left insertField payload ∅.

Definition reducer (state : FieldsState) (action : Action) : FieldsState :=
  match action with
  | clickField payload =>
      {| ids := ids state; entities := entities state;
         selectedId := Some payload; fetchStatus := fetchStatus state |}
  | closeFieldInfoWindow =>
      {| ids := ids state; entities := entities state;
         selectedId := None; fetchStatus := fetchStatus state |}
  | fetchFields_pending =>
      {| ids := ids state; entities := entities state;
         selectedId := selectedId state; fetchStatus := Some pending |}
  | fetchFields_fulfilled payload =>
      {| ids := map id payload; entities := entitiesOf payload;
         selectedId := selectedId state; fetchStatus := Some fulfilled |}
  | fetchFields_rejected =>
      {| ids := ids state; entities := entities state;
         selectedId := selectedId state; fetchStatus := Some rejected |}
  | otherAction => state
  end.

(** The store after a sequence of dispatched actions. *)
Definition dispatchAll (state : FieldsState) (actions : list Action) : FieldsState :=
  fold_left reducer actions state.

(** ** The root state (reducers/store.ts) *)

(** Modelled from the spec: reducers/store.ts and the device-events slice
    are not in the source tree.  The spec's store "holds fields and device
    events", so the root state has the [fields] slice, which every
    selector below reads as [state.fields], next to a device-events
    slice whose type is left as a parameter. *)
Record RootState (DeviceEventsState : Type) : Type := {
  fields : FieldsState;
  deviceEvents : DeviceEventsState;
}.
Arguments fields {DeviceEventsState} _.
Arguments deviceEvents {DeviceEventsState} _.
Arguments Build_RootState {DeviceEventsState} _ _.

(** The root state with the [fields] slice replaced: what the store holds
    after the slice's reducer has run. *)
Definition withFields {D : Type} (state : RootState D) (f : FieldsState) : RootState D :=
  {| fields := f; deviceEvents := deviceEvents state |}.

(** The root state with another selection pointer and nothing else changed. *)
Definition withSelectedId {D : Type} (state : RootState D) (sel : option Z) : RootState D :=
  withFields state
    {| ids := ids (fields state); entities := entities (fields state);
       selectedId := sel; fetchStatus := fetchStatus (fields state) |}.

(** ** Selectors of the slice *)

(** [Field & { outerRing?: google.maps.LatLngLiteral[] }]: the object
    [{...field, outerRing: ...}]. *)
Record FieldWithOuterRing : Type := {
  spread : Field;
  outerRing : option (list LatLngLiteral);
}.

(** The callback of [outerRing.reduce]: [[lng, lat]] destructures the
    first two elements of the position. *)
Definition pushLatLng (acc : list LatLngLiteral) (position : Position) : list LatLngLiteral :=
  let lng := index position 0 in
  let lat := index position 1 in
  if isNumber lng && isNumber lat then acc ++ [{| lng := lng; lat := lat |}]
  else acc.

Section Selectors.
Context {D : Type}.
Implicit Types state : RootState D.

Definition getAllFields state : Result (list Field) :=
  mapM (fun id =>
          match entities (fields state) !! id with
          | None => Throw (NoFieldFound id)
          | Some entity => Ok entity
          end)
       (ids (fields state)).

Definition getClickedFieldId state : option Z := selectedId (fields state).

Definition getFieldById state (fieldId : Z) : option FieldWithOuterRing :=
  match entities (fields state) !! fieldId with
  | Some field =>
      let outerRing := head (coordinates (polygon field)) in
      Some {| spread := field;
              outerRing :=
                match outerRing with
                | None => None
                | Some outerRing => Some (fold_left pushLatLng outerRing [])
                end |}
  | None => None
  end.

(** The geometry library's [center], from a polygon to the
    [geometry.coordinates] of the point it returns; the library is
    outside the repository, so the selector takes it as a parameter. *)
Variable turf_center : Polygon -> Result (list JSValue).

Definition getFieldCenterById state (id : Z) : Result (option LatLngLiteral) :=
  match getFieldById state id with
  | Some fieldData =>
      coords ← turf_center (polygon (spread fieldData));
      let lng := index coords 0 in
      let lat := index coords 1 in
      if isNumber lng && isNumber lat then Ok (Some {| lng := lng; lat := lat |})
      else Ok None
  | None => Ok None
  end.

(** ** The selector of [SelectedFieldCard] (App.tsx) *)

(** [getMostRecentEventsPerField] lives in the device-events slice, which
    is not in the source tree: the selector takes it, and the type of the
    events mapping it returns, as parameters. *)
Context {Events : Type}.
Variable getMostRecentEventsPerField : RootState D -> string -> Result Events.

Record FieldData : Type := {
  fieldName : string;
  center : LatLngLiteral;
  mostRecentEvents : Events;
}.

(** The function passed to [useSelector]; [None] is its [undefined]. *)
Definition SelectedFieldCard_fieldData state : Result (option FieldData) :=
  match selectedId (fields state) with
  | None => Ok None
  | Some selectedId =>
      let fieldName := field_name <$> (spread <$> getFieldById state selectedId) in
      center ← getFieldCenterById state selectedId;
      mostRecentEvents ← getMostRecentEventsPerField state "Perez-Brown";
      match fieldName, center with
      | Some fieldName, Some center =>
          Ok (Some {| fieldName := fieldName; center := center;
                      mostRecentEvents := mostRecentEvents |})
      | _, _ => Throw (IncompleteFieldData selectedId)
      end
  end.

End Selectors.

Arguments FieldData Events : clear implicits.
Arguments fieldName {Events} _.
Arguments center {Events} _.
Arguments mostRecentEvents {Events} _.

(** ** The geometry library's center *)

Module Turf.

Definition BBox : Type := (number * number * number * number)%type.

(** Modelled from the spec: the geometry library is not in the source tree.
    One step of the library's bounding box: the box grows to take in one
    more position. *)
Definition extend (result : BBox) (coord : number * number) : BBox :=
  let '(minX, minY, maxX, maxY) := result in
  let '(x, y) := coord in
  (if gt minX x then x else minX,
   if gt minY y then y else minY,
   if lt maxX x then x else maxX,
   if lt maxY y then y else maxY).

(** Modelled from the spec: the geometry library is not in the source tree.
    The bounding box of a list of positions, from the empty box
    [[Infinity, Infinity, -Infinity, -Infinity]]. *)
Definition bbox (coords : list (number * number)) : BBox :=
  fold_left extend coords (Infinity, Infinity, NegInfinity, NegInfinity).

(** Modelled from the spec: the geometry library is not in the source tree.
    The longitude and latitude of a position whose first two elements are
    numbers. *)
Definition numericPosition (p : Position) : option (number * number) :=
  match index p 0, index p 1 with
  | JSNumber x, JSNumber y => Some (x, y)
  | _, _ => None
  end.

(** Modelled from the spec: @turf/turf is a third-party library and not in
    the source tree.  The spec has the center as the "geometric midpoint
    of a field's polygon" computed by the library's center calculation;
    turf's [center] is the midpoint of the bounding box of all positions
    of all rings, [(minX + maxX) / 2, (minY + maxY) / 2], and its [point]
    constructor throws when a coordinate is NaN.  The model covers
    polygons whose positions start with two numbers (the [number[][][]] of
    the GeoJSON types); on any other position it reports a library error
    instead of following JavaScript's coercions. *)
Definition center (poly : Polygon) : Result (list JSValue) :=
  match mapM numericPosition (concat (coordinates poly)) with
  | None => Throw (LibraryError "center: position is not a pair of numbers")
  | Some coords =>
      let '(minX, minY, maxX, maxY) := bbox coords in
      let x := div (add minX maxX) (ofZ 2) in
      let y := div (add minY maxY) (ofZ 2) in
      if isNaN x || isNaN y
      then Throw (LibraryError "coordinates must contain numbers")
      else Ok [JSNumber x; JSNumber y]
  end.

End Turf.

(** ** Specification vocabulary for the outer ring *)

(** The test of the [reduce] callback on one stored position. *)
Definition numericPair (position : Position) : bool :=
  isNumber (index position 0) && isNumber (index position 1).

Definition toLatLng (position : Position) : LatLngLiteral :=
  {| lng := index position 0; lat := index position 1 |}.

(** ** The invariant of the store *)

(** Every identifier of the ids list has an entity. *)
Definition idsHaveEntities (state : FieldsState) : Prop :=
  forall i, i ∈ ids state -> is_Some (entities state !! i).

(** ** A session that fetches once *)

(** The phases of the one run of the thunk. *)
Inductive ThunkPhase : Type := notDispatched | inFlight | settled.

(** Modelled from the spec: neither the reducer nor the thunk refuses a
    dispatch, and the code that decides what else is dispatched (the other
    components, the store set-up) is not in the source tree.  The spec has
    the fetch status transition "once per session (no retry loop)":
    [fetchFields()] is dispatched once, by the mount effect of [App]; its
    [pending] action comes first and exactly one of [fulfilled] and
    [rejected] follows; [clickField], [closeFieldInfoWindow] and the actions
    of other slices can come at any time.  [dispatchable] says which action
    such a session dispatches in which phase of the thunk.  It is a
    discipline of the dispatching side and no property of the store: the
    reducer handles every action it is given. *)
Definition dispatchable (phase : ThunkPhase) (action : Action) : option ThunkPhase :=
  match action, phase with
  | fetchFields_pending, notDispatched => Some inFlight
  | fetchFields_pending, _ => None
  | (fetchFields_fulfilled _ | fetchFields_rejected), inFlight => Some settled
  | (fetchFields_fulfilled _ | fetchFields_rejected), _ => None
  | (clickField _ | closeFieldInfoWindow | otherAction), _ => Some phase
  end.

(** Modelled from the spec: a session that fetches once, as the phase of
    its thunk and the store. *)
Record Session : Type := { thunk : ThunkPhase; store : FieldsState }.

Definition initialSession : Session :=
  {| thunk := notDispatched; store := initialState |}.

(** Modelled from the spec: one dispatch of a session that fetches once.
    The action goes through the slice's reducer; [None] when such a session
    does not dispatch this action in this phase. *)
Definition sessionStep (s : Session) (action : Action) : option Session :=
  match dispatchable (thunk s) action with
  | Some phase => Some {| thunk := phase; store := reducer (store s) action |}
  | None => None
  end.

(** Modelled from the spec: a sequence of dispatches of such a session. *)
Fixpoint sessionRun (s : Session) (actions : list Action) : option Session :=
  match actions with
  | [] => Some s
  | action :: rest =>
      match sessionStep s action with
      | Some s' => sessionRun s' rest
      | None => None
      end
  end.

(** ** Concrete stores used in the examples below *)

Module Examples.

Definition num (z : Z) : JSValue := JSNumber (ofZ z).

(** The field of the spec's example: the unit square. *)
Definition north : Field :=
  {| id := 1; field_name := "North";
     polygon := {| coordinates :=
       [[[num 0; num 0]; [num 0; num 1]; [num 1; num 1]; [num 1; num 0]; [num 0; num 0]]] |} |}.

Definition south : Field :=
  {| id := 2; field_name := "South";
     polygon := {| coordinates :=
       [[[num 0; num (-2)]; [num 0; num (-1)]; [num 1; num (-1)]; [num 1; num (-2)];
         [num 0; num (-2)]]] |} |}.

(** A field whose outer ring holds, besides one ordinary position, a
    position of non-finite numbers, a position that is too short and a
    position with a string in it. *)
Definition ragged : Field :=
  {| id := 3; field_name := "Ragged";
     polygon := {| coordinates :=
       [[[JSNumber Infinity; JSNumber NaN]; [num 4]; [JSString "5"; num 6]; [num 7; num 8]]] |} |}.

Definition storeOf (payload : list Field) : RootState unit :=
  {| fields := reducer initialState (fetchFields_fulfilled payload); deviceEvents := tt |}.

End Examples.

(** ** A device-events slice for the examples *)

Module DeviceEvents.

(** The reading of one device, as [formatFieldCardMessage] reads it:
    [reel] with [state_current] and [run_speed_mmpm], or [pressure] with
    [state_current] and [reading_kpa]. *)
Inductive Reading : Type :=
| reel (state_current : string) (run_speed_mmpm : number)
| pressure (state_current : string) (reading_kpa : number).

(** Device name to most recent reading, in the object's key order. *)
Definition MostRecentEvents : Type := list (string * Reading).

(** Modelled from the spec: the device-events slice is not in the source
    tree.  The spec describes the events query as "a pass-through selection
    by field name" over "the provided associated events mapping": the slice
    is taken to hold, per field name, the mapping from device name to most
    recent reading. *)
Definition State : Type := list (string * MostRecentEvents).

(** Modelled from the spec: the device-events slice is not in the source
    tree.  The mapping stored under a field name, empty when there is
    none. *)
Fixpoint lookup (name : string) (s : State) : MostRecentEvents :=
  match s with
  | [] => []
  | (key, events) :: rest => if String.eqb key name then events else lookup name rest
  end.

(** Modelled from the spec: the selector is not in the source tree.  It is
    the spec's pass-through selection by field name; it reads the
    device-events slice only. *)
Definition getMostRecentEventsPerField (state : RootState State) (fieldName : string)
  : Result MostRecentEvents :=
  Ok (lookup fieldName (deviceEvents state)).

Definition sample : State :=
  [("Perez-Brown", [("reel-1", reel "running" (ofZ 12)); ("pump-1", pressure "on" (ofZ 300))]);
   ("North", [("reel-9", reel "idle" (ofZ 0))])].

Definition sampleStore : RootState State :=
  {| fields := reducer initialState
                 (fetchFields_fulfilled [Examples.north; Examples.south]);
     deviceEvents := sample |}.

End DeviceEvents.

(** ** Kinds of action *)

(** The actions of the [reducers] block, which write the selection
    pointer. *)
Definition isSelectionAction (action : Action) : bool :=
  match action with
  | clickField _ | closeFieldInfoWindow => true
  | _ => false
  end.

(** The actions of the [extraReducers] block, the thunk's life cycle. *)
Definition isFetchAction (action : Action) : bool :=
  match action with
  | fetchFields_pending | fetchFields_fulfilled _ | fetchFields_rejected => true
  | _ => false
  end.

(** The action of the [fulfilled] case, the only one that writes [ids] and
    [entities]. *)
Definition isFulfilledAction (action : Action) : bool :=
  match action with
  | fetchFields_fulfilled _ => true
  | _ => false
  end.

(** ** The thunk [fetchFields] *)

(** The actions the thunk dispatches, given what the call of
    [getFieldDataFromMockedApi] does: [pending] when the thunk starts, then
    [fulfilled] with the returned fields, or [rejected] when the call threw
    (the [catch] turns the exception into a rejected promise). *)
Definition fetchFields (getFieldDataFromMockedApi : Result (list Field)) : Action * Action :=
  (fetchFields_pending,
   match getFieldDataFromMockedApi with
   | Ok payload => fetchFields_fulfilled payload
   | Throw _ => fetchFields_rejected
   end).

(** ** More vocabulary for the store and the outer ring *)

(** Every entity sits under its own identifier, and the entities are those
    of the ids list. *)
Definition keyedById (state : FieldsState) : Prop :=
  (forall i f, entities state !! i = Some f -> id f = i) /\
  (forall i, is_Some (entities state !! i) <-> i ∈ ids state).

(** The position [[lng, lat]] of a map coordinate. *)
Definition fromLatLng (p : LatLngLiteral) : Position := [lng p; lat p].

(** A stored position that is exactly a pair of numbers. *)
Definition exactPair (position : Position) : bool :=
  match position with
  | [JSNumber _; JSNumber _] => true
  | _ => false
  end.

(** ** The field card (App.tsx) *)

Module Card.

(** The two optional parts of a device's reading, with the properties
    [formatFieldCardMessage] reads. *)
Record Reel : Type := { reel_state_current : JSValue; run_speed_mmpm : JSValue }.
Record Pressure : Type := { pressure_state_current : JSValue; reading_kpa : JSValue }.
Record Reading : Type := { reel : option Reel; pressure : option Pressure }.

(** The object [mostRecentEvents]: its own properties, device name to
    reading, in the order [Object.keys] lists them. *)
Definition MostRecentEvents : Type := list (string * Reading).

Fixpoint ownProperty (events : MostRecentEvents) (keyName : string) : option Reading :=
  match events with
  | [] => None
  | (key, reading) :: rest =>
      if String.eqb key keyName then Some reading else ownProperty rest keyName
  end.

(** The property names every plain object inherits from
    [Object.prototype]. *)
Definition objectPrototypeNames : list string :=
  ["constructor"; "__defineGetter__"; "__defineSetter__"; "hasOwnProperty";
   "__lookupGetter__"; "__lookupSetter__"; "isPrototypeOf"; "propertyIsEnumerable";
   "toString"; "valueOf"; "__proto__"; "toLocaleString"].

Definition isInherited (keyName : string) : bool :=
  existsb (String.eqb keyName) objectPrototypeNames.

Section Format.
(** The string a template literal makes of a value. *)
Variable toStr : JSValue -> string.

(** [formatFieldCardMessage(fieldData, keyName)].  Reading [.reel] off an
    own property gives the reading's part; off an inherited property (a
    function, or [Object.prototype] itself) it gives [undefined]; off
    [undefined], when the object has no such property at all, it is a
    TypeError. *)
Definition formatFieldCardMessage (fieldData : FieldData MostRecentEvents)
    (keyName : string) : Result string :=
  match ownProperty (mostRecentEvents fieldData) keyName with
  | Some reading =>
      match reel reading, pressure reading with
      | Some r, _ =>
          Ok ("Reel Status " ++ toStr (reel_state_current r) ++
              " Run speed " ++ toStr (run_speed_mmpm r))%string
      | None, Some p =>
          Ok ("Pump Status " ++ toStr (pressure_state_current p) ++
              " KPA " ++ toStr (reading_kpa p))%string
      | None, None => Ok "No Status"
      end
  | None =>
      if isInherited keyName then Ok "No Status"
      else Throw (LibraryError "TypeError: cannot read properties of undefined")
  end.

(** What [SelectedFieldCard] renders for a view: the name in the card, one
    row (device, summary) per key of [mostRecentEvents], and the info window
    with its position and text. *)
Record CardView : Type := {
  cardText : string;
  cardRows : list (string * string);
  infoWindowPosition : LatLngLiteral;
  infoWindowText : string;
}.

(** [Object.keys(fieldData.mostRecentEvents).map((keyName, i) => ...)] *)
Definition deviceRows (fieldData : FieldData MostRecentEvents)
  : Result (list (string * string)) :=
  mapM (fun keyName =>
          summary ← formatFieldCardMessage fieldData keyName;
          Ok (keyName, summary))
       (map fst (mostRecentEvents fieldData)).

Context {D : Type}.
Variable turf_center : Polygon -> Result (list JSValue).
Variable getMostRecentEventsPerField : RootState D -> string -> Result MostRecentEvents.

(** The component: [None] is the [null] it returns when nothing is
    selected. *)
Definition SelectedFieldCard (state : RootState D) : Result (option CardView) :=
  fieldData ← SelectedFieldCard_fieldData turf_center getMostRecentEventsPerField state;
  match fieldData with
  | None => Ok None
  | Some fieldData =>
      rows ← deviceRows fieldData;
      Ok (Some {| cardText := fieldName fieldData;
                  cardRows := rows;
                  infoWindowPosition := center fieldData;
                  infoWindowText := fieldName fieldData |})
  end.

(** [handleClose]: the action it dispatches, through the slice's reducer. *)
Definition handleClose (state : RootState D) : RootState D :=
  withFields state (reducer (fields state) closeFieldInfoWindow).

End Format.

(** A mapping with a reel, a pump, a device with both parts and one with
    none. *)
Definition sampleEvents : MostRecentEvents :=
  [("reel-1", {| reel := Some {| reel_state_current := JSString "running";
                                 run_speed_mmpm := JSString "12" |};
                 pressure := None |});
   ("pump-1", {| reel := None;
                 pressure := Some {| pressure_state_current := JSString "on";
                                     reading_kpa := JSString "300" |} |});
   ("combo", {| reel := Some {| reel_state_current := JSString "idle";
                                run_speed_mmpm := JSString "0" |};
                pressure := Some {| pressure_state_current := JSString "off";
                                    reading_kpa := JSString "0" |} |});
   ("bare", {| reel := None; pressure := None |})].

Definition sampleView : FieldData MostRecentEvents :=
  {| fieldName := "North"; center := {| lng := JSNull; lat := JSNull |};
     mostRecentEvents := sampleEvents |}.

(** Template conversion of the strings used in the examples. *)
Definition sampleToStr (v : JSValue) : string :=
  match v with
  | JSString s => s
  | JSUndefined => "undefined"
  | JSNull => "null"
  | JSBoolean true => "true"
  | JSBoolean false => "false"
  | JSNumber _ => "0"
  end.

Definition sampleStore : RootState unit :=
  {| fields := reducer (reducer initialState
                          (fetchFields_fulfilled [Examples.north; Examples.south]))
                       (clickField 1);
     deviceEvents := tt |}.

End Card.

(** ** [mapStateToProps] (App.tsx) *)

(** A [forEach] whose callback updates a value and may throw. *)
Fixpoint forEachM {A B : Type} (f : B -> A -> Result B) (l : list A) (b : B) : Result B :=
  match l with
  | [] => Ok b
  | x :: rest => b' ← f b x; forEachM f rest b'
  end.

Section MapStateToProps.
Context {D DeviceEvent Bounds BoundsLiteral : Type}.

(** The geometry library's [centroid], the device-events selector and the
    map library's [LatLngBounds] (constructor, [extend], [toJSON]) are
    outside the source tree: parameters. *)
Variable turf_centroid : Polygon -> Result (list JSValue).
Variable getAllDeviceEvents : RootState D -> Result (list DeviceEvent).
Variable newLatLngBounds : Bounds.
Variable extend : Bounds -> LatLngLiteral -> Bounds.
Variable toJSON : Bounds -> BoundsLiteral.

Record Props : Type := {
  props_deviceEvents : list DeviceEvent;
  props_fieldIds : list Z;
  props_fields : list Field;
  props_bounds : BoundsLiteral;
}.

(** The callback of [fields.forEach]. *)
Definition extendWithCentroid (bounds : Bounds) (field : Field) : Result Bounds :=
  coords ← turf_centroid (polygon field);
  let lng := index coords 0 in
  let lat := index coords 1 in
  if isNumber lng && isNumber lat then Ok (extend bounds {| lng := lng; lat := lat |})
  else Ok bounds.

Definition mapStateToProps (state : RootState D) : Result Props :=
  fields1 ← getAllFields state;
  bounds ← (if (0 <? length fields1)%nat
            then forEachM extendWithCentroid fields1 newLatLngBounds
            else Ok newLatLngBounds);
  deviceEvents ← getAllDeviceEvents state;
  fields2 ← getAllFields state;
  Ok {| props_deviceEvents := deviceEvents;
        props_fieldIds := ids (fields state);
        props_fields := fields2;
        props_bounds := toJSON bounds |}.

End MapStateToProps.

Arguments Props DeviceEvent BoundsLiteral : clear implicits.
Arguments props_deviceEvents {DeviceEvent BoundsLiteral} _.
Arguments props_fieldIds {DeviceEvent BoundsLiteral} _.
Arguments props_fields {DeviceEvent BoundsLiteral} _.
Arguments props_bounds {DeviceEvent BoundsLiteral} _.

(** * Properties *)

(** ** The outer ring built by [getFieldById] *)

Lemma pushLatLng_fold (ring : Ring) (acc : list LatLngLiteral) :
  fold_left pushLatLng ring acc = acc ++ map toLatLng (List.filter numericPair ring).
Proof.
  revert acc. induction ring as [|position ring IH]; intros acc; simpl.
  - by rewrite app_nil_r.
  - rewrite IH. unfold pushLatLng. fold (numericPair position).
    destruct (numericPair position); simpl; [|done].
    by rewrite <- app_assoc.
Qed.

Lemma numericPair_toLatLng (position : Position) :
  numericPair position = true ->
  isNumber (lng (toLatLng position)) = true /\ isNumber (lat (toLatLng position)) = true.
Proof. unfold numericPair. intros H%andb_prop. exact H. Qed.

Lemma getFieldById_None {D : Type} (state : RootState D) (fieldId : Z) :
  entities (fields state) !! fieldId = None -> getFieldById state fieldId = None.
Proof. intros H. unfold getFieldById. by rewrite H. Qed.

(** ** The entities built by a fulfilled fetch *)

Section EntitiesOf.
Implicit Types (payload : list Field) (acc : gmap Z Field).

Lemma fold_insert_fresh payload acc (i : Z) :
  i ∉ map id payload -> fold_left insertField payload acc !! i = acc !! i.
Proof.
  revert acc. induction payload as [|f payload IH]; intros acc Hi; simpl; [done|].
  simpl in Hi. apply not_elem_of_cons in Hi as [Hne Hi].
  rewrite IH by done. unfold insertField. by rewrite lookup_insert_ne.
Qed.

Lemma fold_insert_lookup payload acc (i : Z) (f : Field) :
  fold_left insertField payload acc !! i = Some f ->
  (f ∈ payload /\ id f = i) \/ acc !! i = Some f.
Proof.
  revert acc. induction payload as [|g payload IH]; intros acc H; simpl in *.
  - by right.
  - apply IH in H as [[Hin Hid]|H].
    + left. split; [by apply list_elem_of_further|done].
    + unfold insertField in H. destruct (decide (id g = i)) as [E|E].
      * rewrite E, lookup_insert_eq in H. injection H as <-.
        left. split; [apply list_elem_of_here|done].
      * rewrite lookup_insert_ne in H by done. by right.
Qed.

Lemma fold_insert_present payload acc (i : Z) :
  i ∈ map id payload -> is_Some (fold_left insertField payload acc !! i).
Proof.
  revert acc. induction payload as [|g payload IH]; intros acc Hi; simpl in *.
  - by apply elem_of_nil in Hi.
  - destruct (decide (i ∈ map id payload)) as [Hin|Hnin].
    + by apply IH.
    + apply elem_of_cons in Hi as [->|Hi]; [|done].
      rewrite fold_insert_fresh by done. unfold insertField.
      rewrite lookup_insert_eq. by eexists.
Qed.

Lemma fold_insert_NoDup payload acc (f : Field) :
  NoDup (map id payload) -> f ∈ payload ->
  fold_left insertField payload acc !! id f = Some f.
Proof.
  revert acc. induction payload as [|g payload IH]; intros acc Hnd Hin; simpl in *.
  - by apply elem_of_nil in Hin.
  - apply NoDup_cons in Hnd as [Hfresh Hnd].
    apply elem_of_cons in Hin as [->|Hin].
    + rewrite fold_insert_fresh by done. unfold insertField. by rewrite lookup_insert_eq.
    + by apply IH.
Qed.

Lemma entitiesOf_lookup payload (i : Z) (f : Field) :
  entitiesOf payload !! i = Some f -> f ∈ payload /\ id f = i.
Proof.
  intros H. apply fold_insert_lookup in H as [H|H]; [done|].
  by rewrite lookup_empty in H.
Qed.

Lemma entitiesOf_present payload (i : Z) :
  i ∈ map id payload -> is_Some (entitiesOf payload !! i).
Proof. apply fold_insert_present. Qed.

Lemma entitiesOf_NoDup payload (f : Field) :
  NoDup (map id payload) -> f ∈ payload -> entitiesOf payload !! id f = Some f.
Proof. apply fold_insert_NoDup. Qed.

End EntitiesOf.

(** ** [getAllFields] on a store whose ids all have an entity *)

Section GetAllFields.
Context {D : Type}.
Implicit Types state : RootState D.

Lemma getAllFields_Forall2 state (fs : list Field) :
  Forall2 (fun i f => entities (fields state) !! i = Some f) (ids (fields state)) fs ->
  getAllFields state = Ok fs.
Proof.
  unfold getAllFields. generalize (ids (fields state)) as l.
  intros l H. induction H as [|i f l fs Hi _ IH]; [done|].
  cbn. rewrite Hi. cbn. rewrite IH. done.
Qed.

Lemma getAllFields_total state :
  (forall i, i ∈ ids (fields state) -> is_Some (entities (fields state) !! i)) ->
  exists fs, getAllFields state = Ok fs.
Proof.
  unfold getAllFields. generalize (ids (fields state)) as l.
  induction l as [|i l IH]; intros H.
  - by exists [].
  - destruct (H i) as [f Hf]; [apply list_elem_of_here|].
    destruct IH as [fs Hfs]; [intros j Hj; apply H; by apply list_elem_of_further|].
    exists (f :: fs). cbn. rewrite Hf. cbn. by rewrite Hfs.
Qed.

End GetAllFields.

Lemma entitiesOf_Forall2 (payload : list Field) :
  NoDup (map id payload) ->
  Forall2 (fun i f => entitiesOf payload !! i = Some f) (map id payload) payload.
Proof.
  intros Hnd.
  assert (H : forall l, (forall f, f ∈ l -> f ∈ payload) ->
                        Forall2 (fun i f => entitiesOf payload !! i = Some f) (map id l) l).
  { induction l as [|f l IH]; intros Hsub; simpl; constructor.
    - apply entitiesOf_NoDup; [done|]. apply Hsub, list_elem_of_here.
    - apply IH. intros g Hg. by apply Hsub, list_elem_of_further. }
  by apply H.
Qed.

(** ** C1: the outer ring of [getFieldById] *)

(** C1, as stated, fails: lodash's [isNumber] accepts NaN and the
    infinities, so a stored position of non-finite numbers is kept.  In the
    store holding the field [ragged] (id 3), [getFieldById] returns an outer
    ring whose first pair has a longitude and a latitude that are not
    finite. *)
Lemma getFieldById_keeps_non_finite_numbers :
  let state := Examples.storeOf [Examples.ragged] in
  entities (fields state) !! 3 = Some Examples.ragged /\
  exists r ring p,
    getFieldById state 3 = Some r /\ outerRing r = Some ring /\ p ∈ ring /\
    isFinite (lng p) = false /\ isFinite (lat p) = false.
Proof.
  split; [reflexivity|].
  eexists _, _, {| lng := JSNumber Infinity; lat := JSNumber NaN |}.
  split; [reflexivity|]. split; [reflexivity|].
  split; [apply list_elem_of_here|]. split; reflexivity.
Qed.

(** C1 (amended): for every identifier present in the store, [getFieldById]
    returns the stored field together with an outer ring that holds, in
    stored order, exactly the stored positions of the first ring whose first
    two components are both JavaScript numbers in the sense of lodash's
    [isNumber] (NaN and the infinities included); every other position is
    dropped and nothing is thrown.  Without a first ring the outer ring is
    undefined. *)
Theorem getFieldById_outerRing {D : Type} (state : RootState D) (fieldId : Z) (field : Field) :
  entities (fields state) !! fieldId = Some field ->
  exists r,
    getFieldById state fieldId = Some r /\ spread r = field /\
    (coordinates (polygon field) = [] -> outerRing r = None) /\
    (forall stored rest, coordinates (polygon field) = stored :: rest ->
       exists ring,
         outerRing r = Some ring /\
         ring = map toLatLng (List.filter numericPair stored) /\
         (forall p, p ∈ ring -> isNumber (lng p) = true /\ isNumber (lat p) = true) /\
         (forall position, position ∈ stored ->
            isNumber (index position 0) = true -> isNumber (index position 1) = true ->
            {| lng := index position 0; lat := index position 1 |} ∈ ring) /\
         (forall p, p ∈ ring ->
            exists position, position ∈ stored /\
              index position 0 = lng p /\ index position 1 = lat p)).
Proof.
  intros Hfield. unfold getFieldById. rewrite Hfield.
  eexists. split; [reflexivity|]. split; [reflexivity|]. cbn. split.
  - by intros ->.
  - intros stored rest ->. cbn. eexists. split; [reflexivity|].
    rewrite pushLatLng_fold. cbn.
    assert (Hmem : forall p, p ∈ map toLatLng (List.filter numericPair stored) <->
                     exists position, position ∈ stored /\ numericPair position = true /\
                                      p = toLatLng position).
    { intros p. rewrite list_elem_of_In, in_map_iff. split.
      - intros (position & <- & Hin%filter_In). exists position.
        rewrite list_elem_of_In. tauto.
      - intros (position & Hin & Hnum & ->). exists position. split; [done|].
        apply filter_In. by rewrite <- list_elem_of_In. }
    split; [done|]. split; [|split].
    + intros p (position & _ & Hnum & ->)%Hmem. by apply numericPair_toLatLng.
    + intros position Hin Hlng Hlat. apply Hmem. exists position.
      unfold numericPair. by rewrite Hlng, Hlat.
    + intros p (position & Hin & _ & ->)%Hmem. by exists position.
Qed.

Lemma getFieldById_outerRing_witness :
  exists r, getFieldById (Examples.storeOf [Examples.ragged]) 3 = Some r /\
            outerRing r = Some [{| lng := JSNumber Infinity; lat := JSNumber NaN |};
                                {| lng := Examples.num 7; lat := Examples.num 8 |}].
Proof.
  destruct (getFieldById_outerRing (Examples.storeOf [Examples.ragged]) 3 Examples.ragged)
    as (r & Hr & _ & _ & Hring); [reflexivity|].
  exists r. split; [exact Hr|].
  destruct (Hring _ _ eq_refl) as (ring & -> & -> & _). reflexivity.
Defined.

(** ** C6: [getFieldById] on an identifier without an entity *)

(** C6: for every store state and every field identifier that has no entry
    in the entities map, [getFieldById] returns [undefined]; the function has
    no throwing path. *)
Theorem getFieldById_absent {D : Type} (state : RootState D) (fieldId : Z) :
  entities (fields state) !! fieldId = None ->
  getFieldById state fieldId = None.
Proof. intros H. unfold getFieldById. by rewrite H. Qed.

Lemma getFieldById_absent_witness :
  getFieldById (Examples.storeOf [Examples.north]) 2 = None.
Proof. apply getFieldById_absent. reflexivity. Defined.

(** ** C3: a rejected fetch *)

(** C3: handling a rejected fetch sets [fetchStatus] to "rejected" and
    leaves the entities map, the ids list and the selection pointer as they
    were, so the selectors still see the data of before the rejection. *)
Theorem rejected_keeps_data (state : FieldsState) :
  let state' := reducer state fetchFields_rejected in
  fetchStatus state' = Some rejected /\
  entities state' = entities state /\
  ids state' = ids state /\
  selectedId state' = selectedId state /\
  (forall (D : Type) (root : RootState D),
     getAllFields (withFields root state') = getAllFields (withFields root state) /\
     forall fieldId,
       getFieldById (withFields root state') fieldId =
       getFieldById (withFields root state) fieldId).
Proof. repeat split. Qed.

(** ** C7: the selection pointer *)

(** C7: [closeFieldInfoWindow] makes the selection pointer absent and
    [clickField] sets it to the given identifier, whether or not that
    identifier has an entity: the reducer never looks at the entities map,
    which, like the ids list and the fetch status, it leaves unchanged.  In
    the initial (empty) store every identifier is without an entity and is
    still selected. *)
Theorem selection_pointer_writes (state : FieldsState) (fieldId : Z) :
  let closed := reducer state closeFieldInfoWindow in
  let clicked := reducer state (clickField fieldId) in
  selectedId closed = None /\
  selectedId clicked = Some fieldId /\
  (entities closed = entities state /\ ids closed = ids state /\
   fetchStatus closed = fetchStatus state) /\
  (entities clicked = entities state /\ ids clicked = ids state /\
   fetchStatus clicked = fetchStatus state) /\
  (entities initialState !! fieldId = None /\
   selectedId (reducer initialState (clickField fieldId)) = Some fieldId).
Proof. repeat split. Qed.

(** ** C2: a fulfilled fetch replaces the collection *)

(** C2: after a fulfilled fetch whose payload [first] has pairwise-distinct
    identifiers, [ids] has the payload's length, every id maps to the
    payload's field of that id, and different ids map to different entities.
    A second fulfilled fetch with payload [second] replaces the collection:
    [ids] has the length of [second], and every id in [ids], like every key
    of [entities], is an id of [second], whatever the first fetch brought.
    When the ids of [second] are pairwise distinct as well, [getAllFields]
    returns exactly [second], in the payload's order. *)
Theorem fulfilled_replaces_collection (state : FieldsState) (first second : list Field) :
  NoDup (map id first) ->
  let state1 := reducer state (fetchFields_fulfilled first) in
  let state2 := reducer state1 (fetchFields_fulfilled second) in
  (length (ids state1) = length first /\
   (forall i, i ∈ ids state1 ->
      exists f, entities state1 !! i = Some f /\ f ∈ first /\ id f = i) /\
   (forall i j f g, i ∈ ids state1 -> j ∈ ids state1 -> i <> j ->
      entities state1 !! i = Some f -> entities state1 !! j = Some g -> f <> g) /\
   (forall (D : Type) (root : RootState D),
      getAllFields (withFields root state1) = Ok first)) /\
  (length (ids state2) = length second /\
   (forall i, i ∈ ids state2 -> i ∈ map id second) /\
   (forall i, is_Some (entities state2 !! i) -> i ∈ map id second) /\
   (forall i, i ∈ map id first -> i ∉ map id second ->
      (i ∉ ids state2) /\ entities state2 !! i = None) /\
   (NoDup (map id second) ->
    forall (D : Type) (root : RootState D),
      getAllFields (withFields root state2) = Ok second)).
Proof.
  intros Hnd state1 state2. subst state1 state2.
  split; [split; [|split; [|split]]|]; cbn [reducer ids entities].
  - apply length_map.
  - intros i Hi. destruct (entitiesOf_present first i Hi) as [f Hf].
    exists f. split; [done|]. by apply entitiesOf_lookup.
  - intros i j f g _ _ Hne Hf%entitiesOf_lookup Hg%entitiesOf_lookup ->.
    destruct Hf as [_ <-], Hg as [_ <-]. done.
  - intros D root. apply getAllFields_Forall2. cbn. by apply entitiesOf_Forall2.
  - split; [apply length_map|]. split; [done|]. split; [|split].
    + intros i [f [Hin <-]%entitiesOf_lookup].
      rewrite list_elem_of_In. apply in_map. by rewrite <- list_elem_of_In.
    + intros i _ Hnot. split; [done|].
      destruct (entitiesOf second !! i) as [f|] eqn:E; [|done].
      apply entitiesOf_lookup in E as [Hin <-]. exfalso. apply Hnot.
      rewrite list_elem_of_In. apply in_map. by rewrite <- list_elem_of_In.
    + intros Hnd2 D root. apply getAllFields_Forall2. cbn. by apply entitiesOf_Forall2.
Qed.

Lemma fulfilled_replaces_collection_witness :
  let state1 := reducer initialState (fetchFields_fulfilled [Examples.north; Examples.south]) in
  let state2 := reducer state1 (fetchFields_fulfilled [Examples.ragged]) in
  length (ids state1) = 2%nat /\ length (ids state2) = 1%nat /\
  entities state2 !! 1 = None /\
  getAllFields (withFields (Examples.storeOf []) state2) = Ok [Examples.ragged].
Proof.
  assert (Hnd1 : NoDup (map id [Examples.north; Examples.south])).
  { cbn. apply NoDup_cons. split; [|apply NoDup_singleton].
    intros H%list_elem_of_singleton. discriminate H. }
  assert (Hnd2 : NoDup (map id [Examples.ragged])) by apply NoDup_singleton.
  destruct (fulfilled_replaces_collection initialState
              [Examples.north; Examples.south] [Examples.ragged] Hnd1)
    as [[Hlen1 _] [Hlen2 [_ [_ [Hgone Hall]]]]].
  split; [exact Hlen1|]. split; [exact Hlen2|]. split.
  - apply (Hgone 1).
    + apply list_elem_of_here.
    + intros H%list_elem_of_singleton. discriminate H.
  - apply (Hall Hnd2).
Defined.

(** ** C10: every id of a reachable store has an entity *)

Lemma reducer_idsHaveEntities (state : FieldsState) (action : Action) :
  idsHaveEntities state -> idsHaveEntities (reducer state action).
Proof.
  intros H. destruct action; cbn; try exact H.
  intros i Hi. cbn in *. by apply entitiesOf_present.
Qed.

Lemma dispatchAll_idsHaveEntities (actions : list Action) (state : FieldsState) :
  idsHaveEntities state -> idsHaveEntities (dispatchAll state actions).
Proof.
  revert state. induction actions as [|action actions IH]; intros state H; [done|].
  cbn. by apply IH, reducer_idsHaveEntities.
Qed.

(** C10: in every store reached from the initial state by a sequence of the
    slice's actions, with arbitrary payloads, every identifier of the ids
    list has an entry in the entities map; hence [getAllFields] never reaches
    its [throw] and returns a list. *)
Theorem reachable_getAllFields_total (actions : list Action) :
  let state := dispatchAll initialState actions in
  (forall i, i ∈ ids state -> is_Some (entities state !! i)) /\
  (forall (D : Type) (root : RootState D),
     exists fs, getAllFields (withFields root state) = Ok fs /\
                length fs = length (ids state)).
Proof.
  intros state.
  assert (H : idsHaveEntities state).
  { apply dispatchAll_idsHaveEntities. intros i Hi. by apply elem_of_nil in Hi. }
  split; [exact H|]. intros D root.
  destruct (getAllFields_total (withFields root state) H) as [fs Hfs].
  exists fs. split; [done|].
  unfold getAllFields in Hfs. cbn in Hfs. clear H. revert fs Hfs.
  generalize (ids state) as l. induction l as [|i l IH]; intros fs Hfs; cbn in Hfs.
  - by injection Hfs as <-.
  - destruct (entities state !! i); cbn in Hfs; [|done].
    destruct (mapM _ l) as [fs'|] eqn:E; cbn in Hfs; [|done].
    injection Hfs as <-. cbn. f_equal. by apply IH.
Qed.

(** ** C8: the fetch status *)

Lemma dispatchAll_snoc (state : FieldsState) (actions : list Action) (action : Action) :
  dispatchAll state (actions ++ [action]) = reducer (dispatchAll state actions) action.
Proof. unfold dispatchAll. by rewrite fold_left_app. Qed.

Lemma no_fetch_filter (actions : list Action) :
  forallb (fun a => negb (isFetchAction a)) actions = true ->
  List.filter isFetchAction actions = [].
Proof.
  induction actions as [|a l IH]; [done|]. cbn [forallb]. intros [Ha Hl]%andb_prop.
  destruct a; try discriminate Ha; cbn; by apply IH.
Qed.





(** ** The selector of [SelectedFieldCard] *)

Section SelectedFieldCard.
Context {D Events : Type}.
Variable turf_center : Polygon -> Result (list JSValue).
Variable getMostRecentEventsPerField : RootState D -> string -> Result Events.
Implicit Types state : RootState D.

(** Whatever the selection, a view that is returned carries the events
    looked up under the fixed name. *)
Lemma fieldData_events state (view : FieldData Events) :
  SelectedFieldCard_fieldData turf_center getMostRecentEventsPerField state
    = Ok (Some view) ->
  getMostRecentEventsPerField state "Perez-Brown" = Ok (mostRecentEvents view).
Proof.
  unfold SelectedFieldCard_fieldData.
  destruct (selectedId (fields state)) as [sel|]; [|done].
  destruct (getFieldCenterById turf_center state sel) as [c|]; cbn; [|done].
  destruct (getMostRecentEventsPerField state "Perez-Brown") as [ev|]; cbn; [|done].
  destruct (getFieldById state sel) as [r|]; cbn; [|done].
  destruct c as [c|]; [|done]. intros H. by injection H as <-.
Qed.

Lemma fieldData_dangling state (sel : Z) :
  selectedId (fields state) = Some sel ->
  entities (fields state) !! sel = None ->
  SelectedFieldCard_fieldData turf_center getMostRecentEventsPerField state =
    match getMostRecentEventsPerField state "Perez-Brown" with
    | Ok _ => Throw (IncompleteFieldData sel)
    | Throw e => Throw e
    end.
Proof.
  intros Hsel Habsent. unfold SelectedFieldCard_fieldData.
  rewrite Hsel. unfold getFieldCenterById.
  rewrite (getFieldById_None state sel Habsent). cbn.
  by destruct (getMostRecentEventsPerField state "Perez-Brown").
Qed.

End SelectedFieldCard.

(** ** C4: the events of the selected-field view *)

(** C4: the selector of [SelectedFieldCard] asks for the events of the fixed
    name "Perez-Brown", whichever field is selected: a view that it returns
    carries the result of that lookup.  Hence, when the events query does not
    itself read the selection pointer, two states that differ only in the
    selected identifier get the same lookup result, and any two views
    returned for them carry the same events mapping. *)
Theorem events_independent_of_selection {D Events : Type}
    (turf_center : Polygon -> Result (list JSValue))
    (getMostRecentEventsPerField : RootState D -> string -> Result Events)
    (state : RootState D) (id1 id2 : Z) :
  (forall st sel name,
     getMostRecentEventsPerField (withSelectedId st sel) name =
     getMostRecentEventsPerField st name) ->
  let fieldData := SelectedFieldCard_fieldData turf_center getMostRecentEventsPerField in
  let state1 := withSelectedId state (Some id1) in
  let state2 := withSelectedId state (Some id2) in
  (forall st view, fieldData st = Ok (Some view) ->
     getMostRecentEventsPerField st "Perez-Brown" = Ok (mostRecentEvents view)) /\
  getMostRecentEventsPerField state1 "Perez-Brown" =
  getMostRecentEventsPerField state2 "Perez-Brown" /\
  (forall view1 view2,
     fieldData state1 = Ok (Some view1) -> fieldData state2 = Ok (Some view2) ->
     mostRecentEvents view1 = mostRecentEvents view2).
Proof.
  intros Hframe fieldData state1 state2.
  assert (Hsame : getMostRecentEventsPerField state1 "Perez-Brown" =
                  getMostRecentEventsPerField state2 "Perez-Brown").
  { unfold state1, state2. by rewrite !Hframe. }
  split; [|split].
  - intros st view. apply fieldData_events.
  - exact Hsame.
  - intros view1 view2 H1%fieldData_events H2%fieldData_events.
    rewrite Hsame, H2 in H1. by injection H1 as <-.
Qed.

Lemma events_independent_of_selection_witness :
  let fieldData :=
    SelectedFieldCard_fieldData Turf.center DeviceEvents.getMostRecentEventsPerField in
  exists view1 view2,
    fieldData (withSelectedId DeviceEvents.sampleStore (Some 1)) = Ok (Some view1) /\
    fieldData (withSelectedId DeviceEvents.sampleStore (Some 2)) = Ok (Some view2) /\
    fieldName view1 = "North" /\ fieldName view2 = "South" /\
    mostRecentEvents view1 = mostRecentEvents view2.
Proof.
  intros fieldData.
  eexists _, _. split; [reflexivity|]. split; [reflexivity|].
  split; [reflexivity|]. split; [reflexivity|].
  refine (proj2 (proj2 (events_independent_of_selection Turf.center
            DeviceEvents.getMostRecentEventsPerField DeviceEvents.sampleStore 1 2 _)) _ _ _ _);
    reflexivity.
Defined.

(** ** C5: a dangling selection *)

(** C5: when the selection pointer holds an identifier without an entry in
    the entities map, the selector of [SelectedFieldCard] throws: it neither
    returns a view nor [undefined].  The error is "Incomplete field data for
    id ..." unless the events query threw first. *)
Theorem dangling_selection_throws {D Events : Type}
    (turf_center : Polygon -> Result (list JSValue))
    (getMostRecentEventsPerField : RootState D -> string -> Result Events)
    (state : RootState D) (sel : Z) :
  selectedId (fields state) = Some sel ->
  entities (fields state) !! sel = None ->
  let result := SelectedFieldCard_fieldData turf_center getMostRecentEventsPerField state in
  (exists e, result = Throw e) /\
  (forall events, getMostRecentEventsPerField state "Perez-Brown" = Ok events ->
     result = Throw (IncompleteFieldData sel)).
Proof.
  intros Hsel Habsent result. unfold result.
  rewrite (fieldData_dangling _ _ _ _ Hsel Habsent).
  destruct (getMostRecentEventsPerField state "Perez-Brown") as [ev|e].
  - split; [by eexists|done].
  - split; [by eexists|]. intros events H. discriminate H.
Qed.

Lemma dangling_selection_throws_witness :
  SelectedFieldCard_fieldData Turf.center DeviceEvents.getMostRecentEventsPerField
    (withSelectedId DeviceEvents.sampleStore (Some 7)) = Throw (IncompleteFieldData 7).
Proof.
  refine (proj2 (dangling_selection_throws Turf.center
            DeviceEvents.getMostRecentEventsPerField
            (withSelectedId DeviceEvents.sampleStore (Some 7)) 7 _ _) _ _);
    reflexivity.
Defined.

(** ** C9: the center of a field *)

(** C9: [getFieldCenterById] returns [undefined] for an identifier without
    an entity and otherwise hands the field's polygon to the geometry
    library's [center]: it returns the first two coordinates of the computed
    point as [{lng, lat}] when both are numbers, [undefined] when one is not,
    and lets an error of the library through.  In the store that holds the
    single field of id 1 over the unit square, [getAllFields] returns exactly
    that field and the center of id 1 is [{lng: 0.5, lat: 0.5}]. *)
Theorem getFieldCenterById_center {D : Type}
    (turf_center : Polygon -> Result (list JSValue)) (state : RootState D) (fieldId : Z) :
  (entities (fields state) !! fieldId = None ->
   getFieldCenterById turf_center state fieldId = Ok None) /\
  (forall field, entities (fields state) !! fieldId = Some field ->
     (forall coords, turf_center (polygon field) = Ok coords ->
        (isNumber (index coords 0) = true -> isNumber (index coords 1) = true ->
         getFieldCenterById turf_center state fieldId =
           Ok (Some {| lng := index coords 0; lat := index coords 1 |})) /\
        (isNumber (index coords 0) && isNumber (index coords 1) = false ->
         getFieldCenterById turf_center state fieldId = Ok None)) /\
     (forall e, turf_center (polygon field) = Throw e ->
        getFieldCenterById turf_center state fieldId = Throw e)) /\
  (let store := Examples.storeOf [Examples.north] in
   getAllFields store = Ok [Examples.north] /\
   exists x y,
     getFieldCenterById Turf.center store 1 =
       Ok (Some {| lng := JSNumber x; lat := JSNumber y |}) /\
     (exists qx, toQ x = Some qx /\ Qeq qx (1 # 2)) /\
     (exists qy, toQ y = Some qy /\ Qeq qy (1 # 2))).
Proof.
  split; [|split].
  - intros Habsent. unfold getFieldCenterById.
    by rewrite (getFieldById_None state fieldId Habsent).
  - intros field Hfield. unfold getFieldCenterById, getFieldById. rewrite Hfield. cbn.
    split.
    + intros coords ->. cbn. split.
      * by intros -> ->.
      * by intros ->.
    + by intros e ->.
  - split; [reflexivity|].
    eexists _, _. split; [reflexivity|]. split; eexists; (split; [reflexivity|reflexivity]).
Qed.

Lemma getFieldCenterById_center_witness :
  getFieldCenterById Turf.center DeviceEvents.sampleStore 7 = Ok None /\
  getFieldCenterById Turf.center DeviceEvents.sampleStore 2 =
    Ok (Some {| lng := index [JSNumber (div (ofZ 1) (ofZ 2)); JSNumber (div (ofZ (-3)) (ofZ 2))] 0;
                lat := index [JSNumber (div (ofZ 1) (ofZ 2)); JSNumber (div (ofZ (-3)) (ofZ 2))] 1 |}).
Proof.
  destruct (getFieldCenterById_center Turf.center DeviceEvents.sampleStore 7) as [Habsent _].
  destruct (getFieldCenterById_center Turf.center DeviceEvents.sampleStore 2)
    as [_ [Hpresent _]].
  split; [apply Habsent; reflexivity|].
  destruct (Hpresent Examples.south eq_refl) as [Hcoords _].
  apply (Hcoords _ eq_refl); reflexivity.
Defined.

(** * Further properties of the store *)

(** ** What a fulfilled fetch stores under an identifier *)

Lemma fold_insertField_snoc (payload : list Field) (f : Field) (acc : gmap Z Field) :
  fold_left insertField (payload ++ [f]) acc
  = insertField (fold_left insertField payload acc) f.
Proof. by rewrite fold_left_app. Qed.

(** X1: the entity a fulfilled fetch stores under an identifier is the last
    field of the payload with that identifier (none when the payload has no
    such field): of two fields with one id, the later one replaces the
    earlier. *)
Theorem entitiesOf_last_wins (payload : list Field) (i : Z) :
  entities (reducer initialState (fetchFields_fulfilled payload)) !! i
  = last (List.filter (fun f => Z.eqb (id f) i) payload).
Proof.
  cbn [reducer entities]. unfold entitiesOf.
  induction payload as [|f payload IH] using rev_ind; [done|].
  rewrite fold_insertField_snoc, List.filter_app. unfold insertField. cbn.
  destruct (Z.eqb_spec (id f) i) as [->|Hne].
  - by rewrite lookup_insert_eq, last_snoc.
  - by rewrite lookup_insert_ne, app_nil_r.
Qed.

(** ** The store's invariant, both ways *)

Lemma reducer_keyedById (state : FieldsState) (action : Action) :
  keyedById state -> keyedById (reducer state action).
Proof.
  intros H. destruct action; try exact H. split; cbn.
  - intros i f Hf. by apply entitiesOf_lookup in Hf as [_ ?].
  - intros i. split.
    + intros [f [Hin <-]%entitiesOf_lookup].
      rewrite list_elem_of_In. apply in_map. by rewrite <- list_elem_of_In.
    + apply entitiesOf_present.
Qed.

Lemma initialState_keyedById : keyedById initialState.
Proof.
  split; cbn.
  - intros i f H. by rewrite lookup_empty in H.
  - intros i. rewrite lookup_empty, elem_of_nil. split; [by intros [? ?]|done].
Qed.

Lemma dispatchAll_keyedById (actions : list Action) (state : FieldsState) :
  keyedById state -> keyedById (dispatchAll state actions).
Proof.
  revert state. induction actions as [|action actions IH]; intros state H; [done|].
  cbn. by apply IH, reducer_keyedById.
Qed.

(** X2: in every store reached from the initial state by actions of the
    slice, each entity is stored under its own [id], and the keys of the
    entities map are exactly the identifiers of the ids list: there is no
    entity that [getAllFields] would not list. *)
Theorem reachable_keyedById (actions : list Action) :
  let state := dispatchAll initialState actions in
  (forall i f, entities state !! i = Some f -> id f = i) /\
  (forall i, is_Some (entities state !! i) <-> i ∈ ids state).
Proof. apply dispatchAll_keyedById, initialState_keyedById. Qed.

(** ** What [getAllFields] returns and when it throws *)

Section GetAllFieldsMore.
Context {D : Type}.
Implicit Types state : RootState D.

Lemma getAllFields_Ok_inv state (fs : list Field) :
  getAllFields state = Ok fs ->
  Forall2 (fun i f => entities (fields state) !! i = Some f) (ids (fields state)) fs.
Proof.
  unfold getAllFields. revert fs. generalize (ids (fields state)) as l.
  induction l as [|i l IH]; intros fs H; cbn in H.
  - injection H as <-. constructor.
  - destruct (entities (fields state) !! i) as [f|] eqn:E; cbn in H; [|done].
    destruct (mapM _ l) as [fs'|] eqn:E'; cbn in H; [|done].
    injection H as <-. constructor; [done|]. by apply IH.
Qed.

Lemma getAllFields_first_missing state (before after : list Z) (i : Z) :
  ids (fields state) = before ++ i :: after ->
  (forall j, j ∈ before -> is_Some (entities (fields state) !! j)) ->
  entities (fields state) !! i = None ->
  getAllFields state = Throw (NoFieldFound i).
Proof.
  unfold getAllFields. intros -> Hbefore Hi.
  induction before as [|j before IH]; cbn.
  - by rewrite Hi.
  - destruct (Hbefore j) as [f Hf]; [apply list_elem_of_here|].
    rewrite Hf. cbn. rewrite IH; [done|].
    intros k Hk. by apply Hbefore, list_elem_of_further.
Qed.

Lemma getAllFields_Throw_inv state (e : Error) :
  getAllFields state = Throw e ->
  exists i, e = NoFieldFound i /\ i ∈ ids (fields state) /\
            entities (fields state) !! i = None.
Proof.
  unfold getAllFields. generalize (ids (fields state)) as l.
  induction l as [|i l IH]; intros H; cbn in H; [done|].
  destruct (entities (fields state) !! i) as [f|] eqn:E; cbn in H.
  - destruct (mapM _ l) as [fs'|e'] eqn:E'; cbn in H; [done|].
    injection H as ->. destruct (IH eq_refl) as (k & -> & Hk & Hnone).
    exists k. split; [done|]. split; [by apply list_elem_of_further|done].
  - injection H as <-. exists i. split; [done|]. split; [apply list_elem_of_here|done].
Qed.

End GetAllFieldsMore.

Lemma keyedById_getAllFields {D : Type} (state : RootState D) :
  keyedById (fields state) ->
  exists fs,
    getAllFields state = Ok fs /\ map id fs = ids (fields state) /\
    Forall2 (fun i f => entities (fields state) !! i = Some f) (ids (fields state)) fs.
Proof.
  intros [Hkey Hdom].
  destruct (getAllFields_total state) as [fs Hfs].
  { intros i Hi. by apply Hdom. }
  exists fs. split; [done|].
  apply getAllFields_Ok_inv in Hfs. split; [|done]. clear Hdom.
  induction Hfs as [|i f l fs' Hi _ IH]; [done|].
  cbn. f_equal; [|exact IH]. by apply Hkey in Hi.
Qed.

(** X3: in every store reached from the initial state, [getAllFields]
    returns one field per entry of the ids list, and the field at each
    position has the identifier at that position: the [id]s of the returned
    fields are the ids list itself, repetitions included. *)
Theorem reachable_getAllFields_ids {D : Type} (root : RootState D) (actions : list Action) :
  let state := withFields root (dispatchAll initialState actions) in
  exists fs, getAllFields state = Ok fs /\ map id fs = ids (fields state).
Proof.
  intros state.
  destruct (keyedById_getAllFields state) as (fs & Hfs & Hids & _).
  { apply dispatchAll_keyedById, initialState_keyedById. }
  by exists fs.
Qed.

(** X4: on a store in which some identifier of the ids list has no entity,
    [getAllFields] throws "No field found with id ..." for the first such
    identifier; and it throws only in that case, always with an identifier
    of the ids list that has no entity. *)
Theorem getAllFields_throws_first_missing {D : Type} (state : RootState D) :
  (forall before i after,
     ids (fields state) = before ++ i :: after ->
     (forall j, j ∈ before -> is_Some (entities (fields state) !! j)) ->
     entities (fields state) !! i = None ->
     getAllFields state = Throw (NoFieldFound i)) /\
  (forall e, getAllFields state = Throw e ->
     exists i, e = NoFieldFound i /\ i ∈ ids (fields state) /\
               entities (fields state) !! i = None).
Proof.
  split.
  - intros before i after. apply getAllFields_first_missing.
  - apply getAllFields_Throw_inv.
Qed.

Lemma getAllFields_throws_first_missing_witness :
  getAllFields
    {| fields := {| ids := [1; 5; 2; 6]; entities := {[ 1 := Examples.north ]};
                    selectedId := None; fetchStatus := Some fulfilled |};
       deviceEvents := tt |}
  = Throw (NoFieldFound 5).
Proof.
  match goal with |- getAllFields ?st = _ => set (state := st) end.
  apply (proj1 (getAllFields_throws_first_missing state) [1] 5 [2; 6]);
    [reflexivity| |reflexivity].
  intros j Hj%list_elem_of_singleton. subst j. by eexists.
Defined.

(** ** How the actions compose *)

(** X5: every action of the slice is idempotent: dispatching it twice in a
    row leaves the store as dispatching it once. *)
Theorem reducer_idempotent (state : FieldsState) (action : Action) :
  reducer (reducer state action) action = reducer state action.
Proof. destruct action; reflexivity. Qed.

Lemma dispatchAll_selection (actions : list Action) (state state' : FieldsState) :
  selectedId state = selectedId state' ->
  selectedId (dispatchAll state actions)
  = selectedId (dispatchAll state' (List.filter isSelectionAction actions)).
Proof.
  revert state state'.
  induction actions as [|action actions IH]; intros state state' H; [done|].
  destruct action; cbn; apply IH; cbn; done.
Qed.

Lemma dispatchAll_data (actions : list Action) (state state' : FieldsState) :
  ids state = ids state' -> entities state = entities state' ->
  fetchStatus state = fetchStatus state' ->
  let after := dispatchAll state actions in
  let after' := dispatchAll state' (List.filter isFetchAction actions) in
  ids after = ids after' /\ entities after = entities after' /\
  fetchStatus after = fetchStatus after'.
Proof.
  revert state state'.
  induction actions as [|action actions IH]; intros state state' H1 H2 H3; [done|].
  destruct action; cbn; apply IH; cbn; done.
Qed.

Lemma fetch_actions_no_selection (actions : list Action) :
  List.filter isSelectionAction (List.filter isFetchAction actions) = [].
Proof. induction actions as [|a l IH]; [done|]. destruct a; cbn; exact IH. Qed.

Lemma selection_actions_no_fetch (actions : list Action) :
  List.filter isFetchAction (List.filter isSelectionAction actions) = [].
Proof. induction actions as [|a l IH]; [done|]. destruct a; cbn; exact IH. Qed.

(** X6: the selection and the fetched data do not influence each other.
    After any sequence of actions, the selection pointer is what the
    [clickField] and [closeFieldInfoWindow] actions of the sequence alone
    would have left, and the ids, the entities and the fetch status are what
    the fetch actions alone would have left.  In particular a fetch never
    clears or moves the selection. *)
Theorem selection_and_data_independent (state : FieldsState) (actions : list Action) :
  let after := dispatchAll state actions in
  let selectionOnly := dispatchAll state (List.filter isSelectionAction actions) in
  let fetchOnly := dispatchAll state (List.filter isFetchAction actions) in
  selectedId after = selectedId selectionOnly /\
  ids after = ids fetchOnly /\
  entities after = entities fetchOnly /\
  fetchStatus after = fetchStatus fetchOnly /\
  selectedId fetchOnly = selectedId state /\
  (ids selectionOnly = ids state /\ entities selectionOnly = entities state /\
   fetchStatus selectionOnly = fetchStatus state).
Proof.
  intros after selectionOnly fetchOnly.
  assert (Hnone := fetch_actions_no_selection actions).
  assert (Hnone' := selection_actions_no_fetch actions).
  split; [by apply dispatchAll_selection|].
  destruct (dispatchAll_data actions state state eq_refl eq_refl eq_refl) as (? & ? & ?).
  split; [done|]. split; [done|]. split; [done|]. split.
  - unfold fetchOnly.
    rewrite (dispatchAll_selection _ state state eq_refl), Hnone. done.
  - unfold selectionOnly.
    destruct (dispatchAll_data (List.filter isSelectionAction actions) state state
                eq_refl eq_refl eq_refl) as (Hi & He & Hs).
    rewrite Hnone' in Hi, He, Hs. done.
Qed.

(** ** More on [getFieldById] and [getFieldCenterById] *)

(** X7: in every store reached from the initial state, the field that
    [getFieldById] returns for an identifier has that identifier as its
    [id]. *)
Theorem reachable_getFieldById_id {D : Type} (root : RootState D) (actions : list Action)
    (fieldId : Z) (r : FieldWithOuterRing) :
  getFieldById (withFields root (dispatchAll initialState actions)) fieldId = Some r ->
  id (spread r) = fieldId.
Proof.
  destruct (dispatchAll_keyedById actions _ initialState_keyedById) as [Hkey _].
  unfold getFieldById. cbn [withFields fields].
  destruct (entities (dispatchAll initialState actions) !! fieldId) as [f|] eqn:E; [|done].
  intros H. injection H as <-. cbn. by apply Hkey.
Qed.

Lemma reachable_getFieldById_id_witness :
  exists r, getFieldById (Examples.storeOf [Examples.north; Examples.south]) 2 = Some r /\
            id (spread r) = 2.
Proof.
  eexists. split; [reflexivity|].
  apply (reachable_getFieldById_id (Examples.storeOf [])
           [fetchFields_fulfilled [Examples.north; Examples.south]] 2).
  reflexivity.
Defined.

Lemma map_fromLatLng_toLatLng (ring : Ring) :
  forallb exactPair ring = true ->
  List.filter numericPair ring = ring /\
  map fromLatLng (map toLatLng ring) = ring.
Proof.
  induction ring as [|position ring IH]; [done|].
  cbn [forallb]. intros [Hp Hring]%andb_prop. destruct (IH Hring) as [IH1 IH2].
  destruct position as [|[ | | | x | ] [|[ | | | y | ] [|? ?]]]; try discriminate Hp.
  cbn. split; by f_equal.
Qed.

(** X8: the outer ring never has more pairs than the stored first ring;
    and when every stored position is exactly a pair of numbers, nothing is
    dropped: writing each [{lng, lat}] of the outer ring back as [[lng, lat]]
    gives the stored ring again. *)
Theorem outerRing_round_trip {D : Type} (state : RootState D) (fieldId : Z)
    (field : Field) (stored : Ring) (rest : list Ring) :
  entities (fields state) !! fieldId = Some field ->
  coordinates (polygon field) = stored :: rest ->
  exists r ring,
    getFieldById state fieldId = Some r /\ outerRing r = Some ring /\
    (length ring <= length stored)%nat /\
    (forallb exactPair stored = true -> map fromLatLng ring = stored).
Proof.
  intros Hfield Hcoords. unfold getFieldById. rewrite Hfield, Hcoords. cbn.
  eexists _, _. split; [reflexivity|]. split; [reflexivity|].
  rewrite pushLatLng_fold. cbn. split.
  - rewrite length_map. apply List.filter_length_le.
  - intros Hexact. destruct (map_fromLatLng_toLatLng stored Hexact) as [-> H]. exact H.
Qed.

Lemma outerRing_round_trip_witness :
  exists r ring,
    getFieldById (Examples.storeOf [Examples.north]) 1 = Some r /\
    outerRing r = Some ring /\
    map fromLatLng ring = hd [] (coordinates (polygon Examples.north)).
Proof.
  destruct (outerRing_round_trip (Examples.storeOf [Examples.north]) 1 Examples.north
              _ _ eq_refl eq_refl) as (r & ring & Hr & Hring & _ & Hback).
  exists r, ring. split; [exact Hr|]. split; [exact Hring|].
  apply Hback. reflexivity.
Defined.

(** X9: [getFieldCenterById] returns a center only for an identifier that
    has an entity, and both components of a returned center are numbers: a
    non-number coordinate of the library's point never reaches the caller. *)
Theorem getFieldCenterById_Some {D : Type} (turf_center : Polygon -> Result (list JSValue))
    (state : RootState D) (fieldId : Z) (c : LatLngLiteral) :
  getFieldCenterById turf_center state fieldId = Ok (Some c) ->
  (exists field, entities (fields state) !! fieldId = Some field /\
                 exists coords, turf_center (polygon field) = Ok coords /\
                                lng c = index coords 0 /\ lat c = index coords 1) /\
  isNumber (lng c) = true /\ isNumber (lat c) = true.
Proof.
  unfold getFieldCenterById, getFieldById.
  destruct (entities (fields state) !! fieldId) as [f|] eqn:E; [|done]. cbn.
  destruct (turf_center (polygon f)) as [coords|] eqn:Ec; cbn; [|done].
  destruct (isNumber (index coords 0)) eqn:E0; [|done].
  destruct (isNumber (index coords 1)) eqn:E1; [|done]. cbn.
  intros H. injection H as <-. cbn. split; [|done].
  exists f. split; [done|]. by exists coords.
Qed.

Lemma getFieldCenterById_Some_witness :
  isNumber (JSNumber (div (ofZ 1) (ofZ 2))) = true /\
  exists field, entities (fields (Examples.storeOf [Examples.north])) !! 1 = Some field.
Proof.
  destruct (getFieldCenterById_Some Turf.center (Examples.storeOf [Examples.north]) 1
              {| lng := JSNumber (div (ofZ 1) (ofZ 2)); lat := JSNumber (div (ofZ 1) (ofZ 2)) |}
              eq_refl) as [[field [Hfield _]] [Hlng _]].
  split; [exact Hlng|]. by exists field.
Defined.

(** * Further properties of the selected-field view *)

Section FieldDataMore.
Context {D Events : Type}.
Variable turf_center : Polygon -> Result (list JSValue).
Variable getMostRecentEventsPerField : RootState D -> string -> Result Events.
Implicit Types state : RootState D.

Lemma fieldData_selected state (sel : Z) :
  selectedId (fields state) = Some sel ->
  SelectedFieldCard_fieldData turf_center getMostRecentEventsPerField state <> Ok None.
Proof.
  intros Hsel. unfold SelectedFieldCard_fieldData. rewrite Hsel.
  destruct (getFieldCenterById turf_center state sel) as [c|]; cbn; [|done].
  destruct (getMostRecentEventsPerField state "Perez-Brown") as [ev|]; cbn; [|done].
  destruct (getFieldById state sel) as [r|]; cbn; [|done].
  by destruct c.
Qed.

Lemma fieldData_view_inv state (view : FieldData Events) :
  SelectedFieldCard_fieldData turf_center getMostRecentEventsPerField state
    = Ok (Some view) ->
  exists sel field coords,
    selectedId (fields state) = Some sel /\
    entities (fields state) !! sel = Some field /\
    turf_center (polygon field) = Ok coords /\
    isNumber (index coords 0) = true /\ isNumber (index coords 1) = true /\
    getMostRecentEventsPerField state "Perez-Brown" = Ok (mostRecentEvents view) /\
    fieldName view = field_name field /\
    center view = {| lng := index coords 0; lat := index coords 1 |}.
Proof.
  unfold SelectedFieldCard_fieldData, getFieldCenterById, getFieldById.
  destruct (selectedId (fields state)) as [sel|]; [|done].
  destruct (entities (fields state) !! sel) as [f|] eqn:E; cbn.
  - destruct (turf_center (polygon f)) as [coords|] eqn:Ec; cbn; [|done].
    destruct (isNumber (index coords 0)) eqn:E0; cbn.
    + destruct (isNumber (index coords 1)) eqn:E1; cbn.
      * destruct (getMostRecentEventsPerField state "Perez-Brown") as [ev|]; cbn; [|done].
        intros H. injection H as <-. cbn. by exists sel, f, coords.
      * by destruct (getMostRecentEventsPerField state "Perez-Brown").
    + by destruct (getMostRecentEventsPerField state "Perez-Brown").
  - by destruct (getMostRecentEventsPerField state "Perez-Brown").
Qed.

Lemma fieldData_view_intro state (sel : Z) (field : Field) (coords : list JSValue)
    (events : Events) :
  selectedId (fields state) = Some sel ->
  entities (fields state) !! sel = Some field ->
  turf_center (polygon field) = Ok coords ->
  isNumber (index coords 0) = true -> isNumber (index coords 1) = true ->
  getMostRecentEventsPerField state "Perez-Brown" = Ok events ->
  SelectedFieldCard_fieldData turf_center getMostRecentEventsPerField state
  = Ok (Some {| fieldName := field_name field;
                center := {| lng := index coords 0; lat := index coords 1 |};
                mostRecentEvents := events |}).
Proof.
  intros Hsel Hf Hc H0 H1 Hev.
  unfold SelectedFieldCard_fieldData, getFieldCenterById, getFieldById.
  rewrite Hsel, Hf. cbn. rewrite Hc. cbn. rewrite H0, H1. cbn. by rewrite Hev.
Qed.

End FieldDataMore.

(** X10: the selector of [SelectedFieldCard] returns [undefined] exactly
    when nothing is selected.  With a selection it returns a view or throws;
    it never answers a selection with [undefined]. *)
Theorem fieldData_undefined_iff {D Events : Type}
    (turf_center : Polygon -> Result (list JSValue))
    (getMostRecentEventsPerField : RootState D -> string -> Result Events)
    (state : RootState D) :
  SelectedFieldCard_fieldData turf_center getMostRecentEventsPerField state = Ok None
  <-> selectedId (fields state) = None.
Proof.
  split.
  - intros H. destruct (selectedId (fields state)) as [sel|] eqn:E; [|done].
    by destruct (fieldData_selected turf_center getMostRecentEventsPerField state sel E).
  - intros H. unfold SelectedFieldCard_fieldData. by rewrite H.
Qed.

Lemma fieldData_undefined_iff_witness :
  SelectedFieldCard_fieldData Turf.center DeviceEvents.getMostRecentEventsPerField
    (withSelectedId DeviceEvents.sampleStore None) = Ok None.
Proof. apply fieldData_undefined_iff. reflexivity. Defined.

(** X11: the selector of [SelectedFieldCard] returns a view exactly when
    the selected identifier has an entity, the geometry library returns a
    point for its polygon whose first two coordinates are numbers, and the
    events query returns; the view then carries that entity's name, those
    two coordinates and the events returned.  In every other case with a
    selection it throws. *)
Theorem fieldData_view_iff {D Events : Type}
    (turf_center : Polygon -> Result (list JSValue))
    (getMostRecentEventsPerField : RootState D -> string -> Result Events)
    (state : RootState D) (view : FieldData Events) :
  SelectedFieldCard_fieldData turf_center getMostRecentEventsPerField state
    = Ok (Some view)
  <-> exists sel field coords,
        selectedId (fields state) = Some sel /\
        entities (fields state) !! sel = Some field /\
        turf_center (polygon field) = Ok coords /\
        isNumber (index coords 0) = true /\ isNumber (index coords 1) = true /\
        getMostRecentEventsPerField state "Perez-Brown" = Ok (mostRecentEvents view) /\
        fieldName view = field_name field /\
        center view = {| lng := index coords 0; lat := index coords 1 |}.
Proof.
  split; [apply fieldData_view_inv|].
  intros (sel & field & coords & Hsel & Hf & Hc & H0 & H1 & Hev & Hname & Hcenter).
  rewrite (fieldData_view_intro _ _ state sel field coords _ Hsel Hf Hc H0 H1 Hev).
  destruct view as [n c ev]. cbn in *. by rewrite Hname, Hcenter.
Qed.

Lemma fieldData_view_iff_witness :
  SelectedFieldCard_fieldData Turf.center DeviceEvents.getMostRecentEventsPerField
    (withSelectedId DeviceEvents.sampleStore (Some 2))
  = Ok (Some {| fieldName := "South";
                center := {| lng := JSNumber (div (ofZ 1) (ofZ 2));
                             lat := JSNumber (div (ofZ (-3)) (ofZ 2)) |};
                mostRecentEvents := DeviceEvents.lookup "Perez-Brown" DeviceEvents.sample |}).
Proof.
  apply fieldData_view_iff.
  exists 2, Examples.south, [JSNumber (div (ofZ 1) (ofZ 2)); JSNumber (div (ofZ (-3)) (ofZ 2))].
  repeat split.
Defined.

(** X12: a fulfilled fetch keeps the selection pointer even when the new
    collection has no field of the selected identifier; the selector of
    [SelectedFieldCard] then throws.  So does selecting, after the fetch, an
    identifier the collection lacks. *)
Theorem fetch_can_orphan_selection {D Events : Type}
    (turf_center : Polygon -> Result (list JSValue))
    (getMostRecentEventsPerField : RootState D -> string -> Result Events)
    (root : RootState D) (sel : Z) (payload : list Field) :
  sel ∉ map id payload ->
  let clickThenFetch :=
    reducer (reducer (fields root) (clickField sel)) (fetchFields_fulfilled payload) in
  let fetchThenClick :=
    reducer (reducer (fields root) (fetchFields_fulfilled payload)) (clickField sel) in
  selectedId clickThenFetch = Some sel /\
  clickThenFetch = fetchThenClick /\
  exists e,
    SelectedFieldCard_fieldData turf_center getMostRecentEventsPerField
      (withFields root clickThenFetch) = Throw e.
Proof.
  intros Hsel clickThenFetch fetchThenClick.
  split; [reflexivity|]. split; [reflexivity|].
  rewrite (fieldData_dangling turf_center getMostRecentEventsPerField
             (withFields root clickThenFetch) sel eq_refl).
  - destruct (getMostRecentEventsPerField _ _); by eexists.
  - cbn. unfold entitiesOf. rewrite fold_insert_fresh by done. apply lookup_empty.
Qed.

Lemma fetch_can_orphan_selection_witness :
  exists e,
    SelectedFieldCard_fieldData Turf.center DeviceEvents.getMostRecentEventsPerField
      (withFields DeviceEvents.sampleStore
         (reducer (reducer (fields DeviceEvents.sampleStore) (clickField 1))
                  (fetchFields_fulfilled [Examples.south])))
    = Throw e.
Proof.
  apply (fetch_can_orphan_selection Turf.center DeviceEvents.getMostRecentEventsPerField
           DeviceEvents.sampleStore 1 [Examples.south]).
  intros H%list_elem_of_singleton. discriminate H.
Defined.

(** * Further properties of a session *)

Lemma sessionRun_app (s : Session) (l1 l2 : list Action) :
  sessionRun s (l1 ++ l2) = s' ← sessionRun s l1; sessionRun s' l2.
Proof.
  revert s. induction l1 as [|a l1 IH]; intros s; [done|].
  cbn. destruct (sessionStep s a) as [s1|]; [apply IH|done].
Qed.

Lemma sessionRun_app_Some (s : Session) (l1 l2 : list Action) (s1 : Session) :
  sessionRun s l1 = Some s1 -> sessionRun s (l1 ++ l2) = sessionRun s1 l2.
Proof. intros H. by rewrite sessionRun_app, H. Qed.

Lemma sessionRun_no_fetch (actions : list Action) (s : Session) :
  forallb (fun a => negb (isFetchAction a)) actions = true ->
  sessionRun s actions = Some {| thunk := thunk s; store := dispatchAll (store s) actions |}.
Proof.
  revert s. induction actions as [|a l IH]; intros [phase st] H; [done|].
  cbn [forallb] in H. apply andb_prop in H as [Ha Hl].
  destruct a; try discriminate Ha; cbn; rewrite (IH _ Hl); reflexivity.
Qed.

(** ** The data after a sequence of actions *)

(** X13: the fetched data are those of the last fulfilled fetch.  After
    any sequence of actions, [ids] and [entities] are the ids and the
    entities of the payload of the last [fulfilled] action of the sequence,
    and those of the starting state when the sequence had none: [pending]
    and [rejected] actions, also after a fulfilled fetch, and the selection
    actions leave the data as they are.  From the initial state
    [getAllFields] therefore returns the empty list until a [fulfilled]
    action has been handled. *)
Theorem data_of_last_fulfilled (state : FieldsState) (actions : list Action) :
  let after := dispatchAll state actions in
  match last (List.filter isFulfilledAction actions) with
  | Some (fetchFields_fulfilled payload) =>
      ids after = map id payload /\ entities after = entitiesOf payload
  | _ => ids after = ids state /\ entities after = entities state
  end /\
  (List.filter isFulfilledAction actions = [] ->
   forall (D : Type) (root : RootState D),
     getAllFields (withFields root (dispatchAll initialState actions)) = Ok []).
Proof.
  assert (Hlast : forall st,
            match last (List.filter isFulfilledAction actions) with
            | Some (fetchFields_fulfilled payload) =>
                ids (dispatchAll st actions) = map id payload /\
                entities (dispatchAll st actions) = entitiesOf payload
            | _ => ids (dispatchAll st actions) = ids st /\
                   entities (dispatchAll st actions) = entities st
            end).
  { intros st. induction actions as [|action actions IH] using rev_ind; [done|].
    rewrite dispatchAll_snoc, List.filter_app. cbn [List.filter].
    destruct action; cbn [isFulfilledAction reducer ids entities];
      rewrite ?app_nil_r, ?last_snoc; try exact IH; done. }
  split; [apply Hlast|].
  intros Hnone D root. specialize (Hlast initialState). rewrite Hnone in Hlast.
  destruct Hlast as [Hids _]. unfold getAllFields. cbn [withFields fields].
  by rewrite Hids.
Qed.

Lemma data_of_last_fulfilled_witness :
  getAllFields (withFields (Examples.storeOf [])
                  (dispatchAll initialState
                     [fetchFields_pending; clickField 1; fetchFields_rejected;
                      fetchFields_pending]))
  = Ok [].
Proof.
  apply (proj2 (data_of_last_fulfilled initialState
                  [fetchFields_pending; clickField 1; fetchFields_rejected;
                   fetchFields_pending])).
  reflexivity.
Defined.

(** X14: the thunk in a session.  Whatever selection actions and actions of
    other slices come before the thunk starts, between its start and its
    settlement, and after it, the session can dispatch the thunk's two
    actions, and ends settled: when the call of the mocked API returned, with
    status "fulfilled", the ids of the returned fields in order and their
    entities; when it threw, with status "rejected" and an empty store.  The
    selection pointer is the one the other actions alone leave. *)
Theorem fetchFields_in_session (api : Result (list Field)) (ui1 ui2 ui3 : list Action) :
  forallb (fun a => negb (isFetchAction a)) ui1 = true ->
  forallb (fun a => negb (isFetchAction a)) ui2 = true ->
  forallb (fun a => negb (isFetchAction a)) ui3 = true ->
  exists s,
    sessionRun initialSession
      (ui1 ++ fst (fetchFields api) :: ui2 ++ snd (fetchFields api) :: ui3) = Some s /\
    thunk s = settled /\
    selectedId (store s) = selectedId (dispatchAll initialState (ui1 ++ ui2 ++ ui3)) /\
    match api with
    | Ok payload =>
        fetchStatus (store s) = Some fulfilled /\
        ids (store s) = map id payload /\ entities (store s) = entitiesOf payload
    | Throw _ =>
        fetchStatus (store s) = Some rejected /\
        ids (store s) = [] /\ entities (store s) = ∅
    end.
Proof.
  intros H1 H2 H3.
  set (start := fst (fetchFields api)). set (settle := snd (fetchFields api)).
  set (all := ui1 ++ start :: ui2 ++ settle :: ui3).
  assert (Hrun : sessionRun initialSession all
                 = Some {| thunk := settled; store := dispatchAll initialState all |}).
  { unfold all.
    change (start :: ui2 ++ settle :: ui3) with ([start] ++ ui2 ++ [settle] ++ ui3).
    rewrite (sessionRun_app_Some _ _ _ _ (sessionRun_no_fetch ui1 _ H1)).
    rewrite (sessionRun_app_Some _ [start] _
               {| thunk := inFlight;
                  store := reducer (dispatchAll initialState ui1) start |}) by reflexivity.
    rewrite (sessionRun_app_Some _ _ _ _ (sessionRun_no_fetch ui2 _ H2)).
    rewrite (sessionRun_app_Some _ [settle] _
               {| thunk := settled;
                  store := reducer (dispatchAll (reducer (dispatchAll initialState ui1)
                                                   start) ui2) settle |}).
    2:{ unfold settle, fetchFields. by destruct api. }
    rewrite (sessionRun_no_fetch ui3 _ H3). cbn [thunk store].
    unfold dispatchAll. by rewrite !fold_left_app. }
  eexists. split; [exact Hrun|]. split; [reflexivity|]. cbn [store].
  assert (F1 := no_fetch_filter _ H1). assert (F2 := no_fetch_filter _ H2).
  assert (F3 := no_fetch_filter _ H3).
  split.
  - rewrite (dispatchAll_selection all initialState initialState eq_refl).
    rewrite (dispatchAll_selection (ui1 ++ ui2 ++ ui3) initialState initialState eq_refl).
    unfold all. rewrite !List.filter_app. cbn [List.filter].
    rewrite !List.filter_app. cbn [List.filter].
    replace (isSelectionAction start) with false by (by unfold start).
    replace (isSelectionAction settle) with false by (unfold settle; by destruct api).
    done.
  - destruct (dispatchAll_data all initialState initialState eq_refl eq_refl eq_refl)
      as (Hi & He & Hs).
    rewrite Hi, He, Hs. unfold all.
    rewrite !List.filter_app. cbn [List.filter]. rewrite !List.filter_app. cbn [List.filter].
    rewrite F1, F2, F3.
    unfold start, settle. by destruct api.
Qed.

Lemma fetchFields_in_session_witness :
  exists s,
    sessionRun initialSession
      [otherAction; fetchFields_pending; clickField 2;
       fetchFields_fulfilled [Examples.north; Examples.south]; closeFieldInfoWindow]
    = Some s /\
    ids (store s) = [1; 2] /\ selectedId (store s) = None.
Proof.
  destruct (fetchFields_in_session (Ok [Examples.north; Examples.south])
              [otherAction] [clickField 2] [closeFieldInfoWindow]
              eq_refl eq_refl eq_refl) as (s & Hrun & _ & Hsel & _ & Hids & _).
  exists s. split; [exact Hrun|]. split; [exact Hids|exact Hsel].
Defined.

(** * Properties of the field card *)

Section CardProperties.
Import Card.
Variable toStr : JSValue -> string.
Implicit Types (events : MostRecentEvents) (fieldData : FieldData MostRecentEvents).

Lemma ownProperty_key events (keyName : string) :
  keyName ∈ map fst events -> is_Some (ownProperty events keyName).
Proof.
  induction events as [|[key reading] events IH]; cbn.
  - by intros H%elem_of_nil.
  - intros H. destruct (String.eqb_spec key keyName) as [->|Hne]; [by eexists|].
    apply elem_of_cons in H as [H|H]; [by subst|by apply IH].
Qed.

Lemma ownProperty_None events (keyName : string) :
  ownProperty events keyName = None -> keyName ∉ map fst events.
Proof.
  intros H Hin. apply ownProperty_key in Hin as [r Hr]. by rewrite H in Hr.
Qed.

Lemma formatFieldCardMessage_own fieldData (keyName : string) (reading : Reading) :
  ownProperty (mostRecentEvents fieldData) keyName = Some reading ->
  exists summary, formatFieldCardMessage toStr fieldData keyName = Ok summary.
Proof.
  intros H. unfold formatFieldCardMessage. rewrite H.
  destruct (reel reading), (pressure reading); by eexists.
Qed.

Lemma deviceRows_keys fieldData (keys : list string) :
  (forall k, k ∈ keys -> k ∈ map fst (mostRecentEvents fieldData)) ->
  exists rows,
    mapM (fun keyName =>
            summary ← formatFieldCardMessage toStr fieldData keyName;
            Ok (keyName, summary)) keys = Ok rows /\
    map fst rows = keys /\
    Forall (fun row => formatFieldCardMessage toStr fieldData (fst row) = Ok (snd row)) rows.
Proof.
  induction keys as [|k keys IH]; intros Hsub.
  - exists []. by repeat split.
  - destruct IH as (rows & Hrows & Hfst & Hall).
    { intros k' Hk'. by apply Hsub, list_elem_of_further. }
    destruct (ownProperty_key _ k (Hsub k (list_elem_of_here _ _))) as [reading Hr].
    destruct (formatFieldCardMessage_own fieldData k reading Hr) as [summary Hs].
    exists ((k, summary) :: rows). cbn. rewrite Hs. cbn. rewrite Hrows. cbn.
    split; [done|]. split; [by f_equal|]. by constructor.
Qed.

End CardProperties.

(** X15: [formatFieldCardMessage] throws exactly when the key is neither a
    property of the events mapping nor a name inherited from
    [Object.prototype].  For a device of the mapping it returns the reel
    message whenever the reading has a reel part, also when it has a
    pressure part as well; the pump message when it has only a pressure part;
    and "No Status" when it has neither. *)
Theorem formatFieldCardMessage_cases (toStr : JSValue -> string)
    (fieldData : FieldData Card.MostRecentEvents) (keyName : string) :
  ((exists e, Card.formatFieldCardMessage toStr fieldData keyName = Throw e) <->
   ((keyName ∉ map fst (mostRecentEvents fieldData)) /\
    Card.isInherited keyName = false)) /\
  (forall reading,
     Card.ownProperty (mostRecentEvents fieldData) keyName = Some reading ->
     (forall r, Card.reel reading = Some r ->
        Card.formatFieldCardMessage toStr fieldData keyName =
          Ok ("Reel Status " ++ toStr (Card.reel_state_current r) ++
              " Run speed " ++ toStr (Card.run_speed_mmpm r))%string) /\
     (forall p, Card.reel reading = None -> Card.pressure reading = Some p ->
        Card.formatFieldCardMessage toStr fieldData keyName =
          Ok ("Pump Status " ++ toStr (Card.pressure_state_current p) ++
              " KPA " ++ toStr (Card.reading_kpa p))%string) /\
     (Card.reel reading = None -> Card.pressure reading = None ->
        Card.formatFieldCardMessage toStr fieldData keyName = Ok "No Status")).
Proof.
  split.
  - unfold Card.formatFieldCardMessage.
    destruct (Card.ownProperty (mostRecentEvents fieldData) keyName) as [reading|] eqn:E.
    + split.
      * intros [e He]. destruct (Card.reel reading), (Card.pressure reading); discriminate He.
      * intros [Hnot _]. exfalso. apply Hnot.
        clear Hnot. revert E. generalize (mostRecentEvents fieldData) as events.
        induction events as [|[key r] events IH]; cbn; [done|].
        destruct (String.eqb_spec key keyName) as [->|Hne].
        -- intros _. apply list_elem_of_here.
        -- intros H. by apply list_elem_of_further, IH.
    + apply ownProperty_None in E. destruct (Card.isInherited keyName).
      * split; [by intros [e He]|by intros [_ ?]].
      * split; [done|]. intros _. by eexists.
  - intros reading Hown. unfold Card.formatFieldCardMessage. rewrite Hown.
    split; [|split].
    + intros r ->. by destruct (Card.pressure reading).
    + by intros p -> ->.
    + by intros -> ->.
Qed.

Lemma formatFieldCardMessage_cases_witness :
  Card.formatFieldCardMessage Card.sampleToStr Card.sampleView "combo"
  = Ok "Reel Status idle Run speed 0" /\
  exists e, Card.formatFieldCardMessage Card.sampleToStr Card.sampleView "pump-2" = Throw e.
Proof.
  split.
  - destruct (proj2 (formatFieldCardMessage_cases Card.sampleToStr Card.sampleView "combo")
                {| Card.reel := Some {| Card.reel_state_current := JSString "idle";
                                        Card.run_speed_mmpm := JSString "0" |};
                   Card.pressure := Some {| Card.pressure_state_current := JSString "off";
                                            Card.reading_kpa := JSString "0" |} |}
                eq_refl) as [Hreel _].
    exact (Hreel _ eq_refl).
  - apply (proj1 (formatFieldCardMessage_cases Card.sampleToStr Card.sampleView "pump-2")).
    split; [|reflexivity].
    cbn. rewrite !elem_of_cons, elem_of_nil. intros [H|[H|[H|[H|[]]]]]; discriminate H.
Defined.

(** X16: the rows of the card never throw: for every view, the card gets
    exactly one row per key of the events mapping, in the order of the keys,
    and the summary of each row is what [formatFieldCardMessage] returns for
    its key. *)
Theorem deviceRows_total (toStr : JSValue -> string)
    (fieldData : FieldData Card.MostRecentEvents) :
  exists rows,
    Card.deviceRows toStr fieldData = Ok rows /\
    map fst rows = map fst (mostRecentEvents fieldData) /\
    Forall (fun row => Card.formatFieldCardMessage toStr fieldData (fst row) = Ok (snd row))
           rows.
Proof. unfold Card.deviceRows. by apply deviceRows_keys. Qed.

(** X17: the component [SelectedFieldCard] throws exactly when its selector
    throws, with the same error: rendering adds no failure.  It renders
    nothing exactly when nothing is selected, and for a view of the selector
    it renders the view's name, its center and one row per device.  After
    [handleClose] it renders nothing, whatever the state was, also one in
    which it threw. *)
Theorem SelectedFieldCard_render {D : Type} (toStr : JSValue -> string)
    (turf_center : Polygon -> Result (list JSValue))
    (getMostRecentEventsPerField : RootState D -> string -> Result Card.MostRecentEvents)
    (state : RootState D) :
  let component := Card.SelectedFieldCard toStr turf_center getMostRecentEventsPerField in
  let selector := SelectedFieldCard_fieldData turf_center getMostRecentEventsPerField in
  (forall e, component state = Throw e <-> selector state = Throw e) /\
  (component state = Ok None <-> selectedId (fields state) = None) /\
  (forall fieldData, selector state = Ok (Some fieldData) ->
     exists rows,
       component state =
         Ok (Some {| Card.cardText := fieldName fieldData; Card.cardRows := rows;
                     Card.infoWindowPosition := center fieldData;
                     Card.infoWindowText := fieldName fieldData |}) /\
       map fst rows = map fst (mostRecentEvents fieldData)) /\
  component (Card.handleClose state) = Ok None.
Proof.
  intros component selector. unfold component, Card.SelectedFieldCard. fold selector.
  assert (Hnone : selector state = Ok None <-> selectedId (fields state) = None).
  { split.
    - intros H. destruct (selectedId (fields state)) as [sel|] eqn:E; [|done].
      by destruct (fieldData_selected turf_center getMostRecentEventsPerField state sel E).
    - intros H. unfold selector, SelectedFieldCard_fieldData. by rewrite H. }
  destruct (selector state) as [[fieldData|]|e0] eqn:E; cbn.
  - destruct (deviceRows_keys toStr fieldData (map fst (mostRecentEvents fieldData))
                (fun k H => H)) as (rows & Hrows & Hfst & _).
    unfold Card.deviceRows. rewrite Hrows. cbn. split; [done|]. split.
    + split; [done|]. intros H%Hnone. discriminate H.
    + split; [|done]. intros fd H. injection H as <-. by exists rows.
  - split; [done|]. split; [|split; [done|done]].
    split; [intros _; by apply Hnone|done].
  - split; [intros e; split; intros H; by injection H as ->|].
    split; [|split; [done|done]].
    split; [done|]. intros H%Hnone. discriminate H.
Qed.

(** * Properties of [mapStateToProps] *)

Section MapStateToPropsProperties.
Context {D DeviceEvent Bounds BoundsLiteral : Type}.
Variable turf_centroid : Polygon -> Result (list JSValue).
Variable getAllDeviceEvents : RootState D -> Result (list DeviceEvent).
Variable newLatLngBounds : Bounds.
Variable extend : Bounds -> LatLngLiteral -> Bounds.
Variable toJSON : Bounds -> BoundsLiteral.

Lemma forEachM_extend_total (fs : list Field) (bounds : Bounds) :
  Forall (fun f => exists coords, turf_centroid (polygon f) = Ok coords) fs ->
  exists bounds', forEachM (extendWithCentroid turf_centroid extend) fs bounds = Ok bounds'.
Proof.
  intros H. revert bounds. induction H as [|f fs [coords Hc] _ IH]; intros bounds.
  - by eexists.
  - assert (Hstep : exists b1, extendWithCentroid turf_centroid extend bounds f = Ok b1).
    { unfold extendWithCentroid. rewrite Hc. cbn.
      destruct (isNumber (index coords 0) && isNumber (index coords 1)); by eexists. }
    destruct Hstep as [b1 Hb1]. cbn [forEachM]. rewrite Hb1. apply IH.
Qed.

Lemma mapStateToProps_keyedById (state : RootState D) (events : list DeviceEvent) :
  keyedById (fields state) ->
  (forall i f, entities (fields state) !! i = Some f ->
     exists coords, turf_centroid (polygon f) = Ok coords) ->
  getAllDeviceEvents state = Ok events ->
  exists props,
    mapStateToProps turf_centroid getAllDeviceEvents newLatLngBounds extend toJSON state
      = Ok props /\
    props_deviceEvents props = events /\
    props_fieldIds props = ids (fields state) /\
    map id (props_fields props) = props_fieldIds props /\
    getAllFields state = Ok (props_fields props) /\
    (ids (fields state) = [] -> props_bounds props = toJSON newLatLngBounds).
Proof.
  intros Hkeyed Hcentroid Hevents.
  destruct (keyedById_getAllFields state Hkeyed) as (fs & Hfs & Hids & Hall).
  assert (Htotal : Forall (fun f => exists coords, turf_centroid (polygon f) = Ok coords) fs).
  { clear Hfs Hids. induction Hall as [|i f l fs' Hi _ IH]; constructor; [|exact IH].
    by apply (Hcentroid i). }
  destruct (forEachM_extend_total fs newLatLngBounds Htotal) as [bounds Hbounds].
  unfold mapStateToProps. rewrite Hfs. cbn.
  destruct fs as [|f fs].
  - cbn. rewrite Hevents. cbn. eexists. split; [reflexivity|]. cbn. repeat split; done.
  - cbn [length Nat.ltb Nat.leb]. rewrite Hbounds. cbn. rewrite Hevents. cbn.
    eexists. split; [reflexivity|]. cbn [props_deviceEvents props_fieldIds props_fields
                                          props_bounds].
    repeat split; try done.
    intros Hempty. rewrite Hempty in Hids. discriminate Hids.
Qed.

End MapStateToPropsProperties.

(** X18: in every store reached from the initial state, when the geometry
    library returns a point for the polygon of each stored field and the
    device-events selector returns, [mapStateToProps] returns props (its two
    calls of [getAllFields] do not throw): [fieldIds] is the ids list,
    [fields] is what [getAllFields] returns and has exactly the identifiers
    of [fieldIds], position by position, and on an empty store [bounds] is
    the JSON of a fresh, never extended [LatLngBounds]. *)
Theorem mapStateToProps_reachable {D DeviceEvent Bounds BoundsLiteral : Type}
    (turf_centroid : Polygon -> Result (list JSValue))
    (getAllDeviceEvents : RootState D -> Result (list DeviceEvent))
    (newLatLngBounds : Bounds) (extend : Bounds -> LatLngLiteral -> Bounds)
    (toJSON : Bounds -> BoundsLiteral)
    (root : RootState D) (actions : list Action) (events : list DeviceEvent) :
  let state := withFields root (dispatchAll initialState actions) in
  (forall i f, entities (fields state) !! i = Some f ->
     exists coords, turf_centroid (polygon f) = Ok coords) ->
  getAllDeviceEvents state = Ok events ->
  exists props,
    mapStateToProps turf_centroid getAllDeviceEvents newLatLngBounds extend toJSON state
      = Ok props /\
    props_deviceEvents props = events /\
    props_fieldIds props = ids (fields state) /\
    map id (props_fields props) = props_fieldIds props /\
    getAllFields state = Ok (props_fields props) /\
    (ids (fields state) = [] -> props_bounds props = toJSON newLatLngBounds).
Proof.
  intros state. apply mapStateToProps_keyedById.
  apply dispatchAll_keyedById, initialState_keyedById.
Qed.

Lemma mapStateToProps_reachable_witness :
  exists props,
    mapStateToProps Turf.center (fun _ : RootState unit => Ok [tt])
      ([] : list LatLngLiteral) (fun bounds point => bounds ++ [point]) (fun bounds => bounds)
      (Examples.storeOf [Examples.north; Examples.south]) = Ok props /\
    props_fieldIds props = [1; 2] /\ map id (props_fields props) = [1; 2].
Proof.
  destruct (mapStateToProps_reachable Turf.center (fun _ : RootState unit => Ok [tt])
              ([] : list LatLngLiteral) (fun bounds point => bounds ++ [point])
              (fun bounds => bounds)
              (Examples.storeOf []) [fetchFields_fulfilled [Examples.north; Examples.south]]
              [tt])
    as (props & Hprops & _ & Hids & Hfields & _).
  - intros i f Hf. apply entitiesOf_lookup in Hf as [Hin _].
    apply elem_of_cons in Hin as [->|Hin]; [by eexists|].
    apply list_elem_of_singleton in Hin as ->. by eexists.
  - reflexivity.
  - exists props. split; [exact Hprops|]. rewrite Hfields. split; exact Hids.
Defined.

(** * The selection after a sequence of actions *)

(** X19: [getClickedFieldId] answers with the last selection action alone:
    after any sequence of actions it returns the payload of the last
    [clickField] if no [closeFieldInfoWindow] came after it, [undefined] if
    the last selection action was a [closeFieldInfoWindow], and the earlier
    selection if the sequence had no selection action at all. *)
Theorem getClickedFieldId_last_selection {D : Type} (root : RootState D)
    (actions : list Action) :
  getClickedFieldId (withFields root (dispatchAll (fields root) actions))
  = match last (List.filter isSelectionAction actions) with
    | Some (clickField payload) => Some payload
    | Some _ => None
    | None => getClickedFieldId root
    end.
Proof.
  unfold getClickedFieldId. cbn [withFields fields].
  induction actions as [|action actions IH] using rev_ind; [done|].
  rewrite dispatchAll_snoc, List.filter_app. cbn [List.filter].
  destruct action; cbn [isSelectionAction reducer selectedId];
    rewrite ?app_nil_r, ?last_snoc; try exact IH; reflexivity.
Qed.
